(** * VelocityMart operations dashboard (streamlit_app.py)

    A shallow embedding of the data transformations of the dashboard script
    and the properties its specification states about them.

    Conventions of the embedding.
    - A pandas table is the list of its rows, each row a record with the
      columns the script reads.  The CSV files are the "cleaned" ones: every
      cell of a loaded table is present.  A column produced by a left join
      is an [option]: [None] is the missing value (NaN) of an unmatched row.
    - A Python float is the rational number it stands for ([Q]), an integer
      count a [nat].  The float operations of the script itself round their
      exact result to the nearest number with a 53-bit mantissa, ties to
      even ([Py.rnd]), as binary64 does; the exponent is not bounded, so
      there is no overflow or underflow, which agrees with binary64 for all
      magnitudes between 2^-1022 and 2^1024.  The numerics inside pandas
      (the interpolation of [quantile], the sum of a column), whose order of
      operations belongs to the library, are in exact arithmetic.
    - Where numpy/pandas would yield a non-finite number or raise, the
      embedded computation returns [None]. *)

From Stdlib Require Import QArith Qminmax Qround Qpower Qabs Lqa ZArith Lia Ascii String.
From stdpp Require Import base list gmap sets strings sorting.

Open Scope Q_scope.

(** ** Python numbers *)

Module Py.

(** Smallest 53-bit mantissa. *)
Definition mant : Z := (2 ^ 52)%Z.

(** The exponent [e] of the last place of [q <> 0]:
    [mant <= |q| / 2^e < 2 * mant]. *)
Definition ulp_exp (q : Q) : Z :=
  let e0 := (Z.log2 (Z.abs (Qnum q)) - Z.log2 (Zpos (Qden q)) - 52)%Z in
  if Qle_bool (inject_Z mant) (Qabs q / 2 ^ e0) then e0 else (e0 - 1)%Z.

(** Nearest integer, ties to the even one. *)
Definition round_half_even (q : Q) : Z :=
  let f := Qfloor q in
  match Qcompare (q - inject_Z f) (1 # 2) with
  | Lt => f
  | Gt => (f + 1)%Z
  | Eq => if Z.even f then f else (f + 1)%Z
  end.

(** The float nearest to [q]: [q] rounded at its last place. *)
Definition rnd (q : Q) : Q :=
  let q := Qred q in
  if Qeq_bool q 0 then 0
  else let e := ulp_exp q in
       Qred (inject_Z (round_half_even (q / 2 ^ e)) * 2 ^ e).

(** An integer, and the float it converts to in float arithmetic. *)
Definition int (n : nat) : Q := inject_Z (Z.of_nat n).
Definition float (n : nat) : Q := rnd (int n).

(** A decimal literal such as [0.05]. *)
Definition lit (q : Q) : Q := rnd q.

(** [a * b] and [a - b] on floats. *)
Definition mul (a b : Q) : Q := rnd (a * b).
Definition sub (a b : Q) : Q := rnd (a - b).

(** [a / b]; [None] where the quotient is not a finite number. *)
Definition div (a b : Q) : option Q :=
  if Qeq_bool b 0 then None else Some (rnd (a / b)).

(** [min(a, b)]: the first argument unless the second is smaller. *)
Definition min (a b : Q) : Q := if Qle_bool a b then a else b.

(** [max(a, b)]: the first argument unless the second is larger. *)
Definition max (a b : Q) : Q := if Qle_bool b a then a else b.

(** [round(x, 1)]: the exact value of [x] rounded to one decimal place,
    ties to even, and the float nearest to that decimal. *)
Definition round1 (x : Q) : Q := rnd (inject_Z (round_half_even (x * 10)) / 10).

(** [min(a, b)] and [max(a, b)] when [b] may be NaN ([None]): every
    comparison with NaN is false, so the first argument is kept. *)
Definition min_nan (a : Q) (b : option Q) : Q := from_option (min a) a b.
Definition max_nan (a : Q) (b : option Q) : Q := from_option (max a) a b.

(** [a > b] and [a < b]. *)
Definition gt (a b : Q) : bool := negb (Qle_bool a b).
Definition lt (a b : Q) : bool := negb (Qle_bool b a).

(** [int(x)]: the integer part, towards zero. *)
Definition trunc (q : Q) : Z := if Qle_bool 0 q then Qfloor q else Qceiling q.

(** [np.ceil(x)] as an integer. *)
Definition ceil (q : Q) : Z := Qceiling q.

End Py.

(** ** The five tables *)

Record datetime := mk_datetime {
  dt_year : Z; dt_month : Z; dt_day : Z;
  dt_hour : Z; dt_minute : Z; dt_second : Z }.

Record SkuRow := mk_sku {
  sku_id : string; category : string; weight_kg : Q;
  current_slot : string; temp_req : string }.

Record OrderRow := mk_order {
  o_order_id : string; o_sku_id : string; o_order_timestamp : datetime }.

Record PickerRow := mk_picker {
  p_picker_id : string; p_order_id : string; p_sku_id : string;
  p_travel_distance_m : Q; p_order_timestamp : datetime }.

Record SlotRow := mk_slot { slot_id : string; temp_zone : string }.

(** The picker table with the column ["hour"], which the loaded file does
    not have and line 149 assigns. *)
Record PickerTable := mk_picker_table {
  pk_rows : list PickerRow; pk_hour : option (list Z) }.

(** The slotting plan is never interpreted: header and cells as text. *)
Record Frame := mk_frame { fr_columns : list string; fr_rows : list (list string) }.

(** ** pandas operations *)

Module Pd.

(** [left.merge(right, on=key, how="left")]: every left row in order,
    paired with each matching right row in order, or with a missing
    right side when there is none. *)
Definition merge_left {A B K} `{EqDecision K} (ka : A -> K) (kb : B -> K)
    (left : list A) (right : list B) : list (A * option B) :=
  a ← left;
  match filter (λ b, kb b = ka a) right with
  | [] => [(a, None)]
  | ms => (λ b, (a, Some b)) <$> ms
  end.

(** [df.groupby(key)]: one group per distinct key, in key order. *)
Definition groupby {A K} `{EqDecision K} (le : K -> K -> bool) (key : A -> K)
    (rows : list A) : list (K * list A) :=
  (λ k, (k, filter (λ r, key r = k) rows))
    <$> merge_sort (λ a b, le a b) (remove_dups (key <$> rows)).

(** [df.groupby(key).size()] over the column of keys. *)
Definition groupby_size {K} `{EqDecision K} (le : K -> K -> bool)
    (keys : list K) : list (K * nat) :=
  prod_map id length <$> groupby le id keys.

(** [series.quantile(q)], linear interpolation between the two nearest
    ranks of the sorted values, in exact arithmetic; NaN ([None]) for an
    empty column. *)
Definition quantile (q : Q) (xs : list Q) : option Q :=
  match merge_sort (λ a b, Qle_bool a b) xs with
  | [] => None
  | (x0 :: _) as sorted =>
      let n := length sorted in
      let pos := q * inject_Z (Z.of_nat (n - 1)) in
      let lo := Z.to_nat (Qfloor pos) in
      let frac := pos - inject_Z (Qfloor pos) in
      let a := nth lo sorted x0 in
      let b := nth (Nat.min (lo + 1) (n - 1)) sorted x0 in
      Some (a + (b - a) * frac)
  end.

(** [df.head(n)]. *)
Definition head {A} (n : nat) (rows : list A) : list A := take n rows.

Definition is_upper (c : ascii) : bool :=
  let n := nat_of_ascii c in (65 <=? n)%nat && (n <=? 90)%nat.

(** [series.str.extract(r"^([A-Z])")] on one cell. *)
Definition extract_upper (cell : option string) : option string :=
  match cell with
  | Some (String c _) => if is_upper c then Some (String c EmptyString) else None
  | _ => None
  end.

(** [series.idxmax()]: the label of the first largest value; it raises on
    an empty series. *)
Definition idxmax {K} (s : list (K * nat)) : option K :=
  match s with
  | [] => None
  | x :: rest =>
      Some (foldl (λ best y, if (best.2 <? y.2)%nat then y else best) x rest).1
  end.

End Pd.

(** ** Global aisle traffic (lines 36-55) *)

Record OrderSlotRow := mk_order_slot {
  os_order : OrderRow; os_current_slot : option string; os_aisle : option string }.

Definition orders_with_slot (orders : list OrderRow) (sku_master : list SkuRow)
    : list OrderSlotRow :=
  (λ r, let slot := snd <$> r.2 in
        mk_order_slot r.1 slot (Pd.extract_upper slot))
    <$> Pd.merge_left o_sku_id fst orders
          ((λ s, (sku_id s, current_slot s)) <$> sku_master).

(** Rows with a missing aisle belong to no group. *)
Definition aisle_traffic (ows : list OrderSlotRow) : list (string * nat) :=
  Pd.groupby_size String.leb (omap os_aisle ows).

Definition total_traffic (aisle_traffic : list (string * nat)) : nat :=
  sum_list (snd <$> aisle_traffic).

Definition pct_b (aisle_traffic : list (string * nat)) : option Q :=
  if decide ("B"%string ∈ fst <$> aisle_traffic) then
    b_traffic ← list.head (snd <$> filter (λ r, r.1 = "B"%string) aisle_traffic);
    ratio ← Py.div (Py.float b_traffic) (Py.float (total_traffic aisle_traffic));
    Some (Py.mul ratio 100)
  else Some 0.

(** ** Data forensics (lines 71-110) *)

(** The banner of a tab: an error with its table, or a success. *)
Inductive Alert (A : Type) := AlertError (shown : A) | AlertSuccess.
Arguments AlertError {A} shown.
Arguments AlertSuccess {A}.

Definition upper_domain_limit : Q := 25.
Definition lower_domain_limit : Q := Py.lit 0.01.

Definition decimal_drift_with (upper lower : Q) (sku_master : list SkuRow)
    : list SkuRow :=
  let p99 := Pd.quantile 0.995 (weight_kg <$> sku_master) in
  let p001 := Pd.quantile 0.005 (weight_kg <$> sku_master) in
  filter (λ s, Py.gt (weight_kg s) (Py.min_nan upper p99)
               || Py.lt (weight_kg s) (Py.max_nan lower p001)) sku_master.

Definition decimal_drift : list SkuRow -> list SkuRow :=
  decimal_drift_with upper_domain_limit lower_domain_limit.

Definition decimal_drift_tab (sku_master : list SkuRow)
    : Alert (nat * list (string * string * Q)) :=
  let flagged := decimal_drift sku_master in
  if (0 <? length flagged)%nat
  then AlertError (length flagged,
                   (λ s, (sku_id s, category s, weight_kg s)) <$> flagged)
  else AlertSuccess.

Definition valid_bins (warehouse : list SlotRow) : gset string :=
  list_to_set (slot_id <$> warehouse).

Definition ghost_bins (sku_master : list SkuRow) (warehouse : list SlotRow)
    : gset string :=
  list_to_set (current_slot <$> sku_master) ∖ valid_bins warehouse.

Definition ghost_tab (sku_master : list SkuRow) (warehouse : list SlotRow)
    : Alert (list SkuRow) :=
  let ghosts := ghost_bins sku_master warehouse in
  if decide (ghosts = ∅) then AlertSuccess
  else AlertError (filter (λ s, current_slot s ∈ ghosts) sku_master).

(** The SKU master of the example: weights 0.005, 1, 2, 3 and 30. *)
Definition drift_example : list SkuRow :=
  [ mk_sku "W1" "dairy" (Py.lit 0.005) "A1" "cold";
    mk_sku "W2" "dairy" 1 "A2" "cold";
    mk_sku "W3" "snacks" 2 "B1" "ambient";
    mk_sku "W4" "snacks" 3 "B2" "ambient";
    mk_sku "W5" "staples" 30 "C1" "ambient" ].

(** The tables of the example: slots A1, A2, B1; SKUs stored in A1 and C9. *)
Definition ghost_example_warehouse : list SlotRow :=
  [ mk_slot "A1" "cold"; mk_slot "A2" "cold"; mk_slot "B1" "ambient" ].

Definition ghost_example_sku : list SkuRow :=
  [ mk_sku "S1" "dairy" 1 "A1" "cold";
    mk_sku "S2" "snacks" 2 "C9" "ambient" ].

(** ** Spoilage risk (lines 138-144) *)

Definition temp_violations (sku_master : list SkuRow) (warehouse : list SlotRow)
    : list (SkuRow * option SlotRow) :=
  filter (λ r, Some (temp_req r.1) ≠ temp_zone <$> r.2)
         (Pd.merge_left current_slot slot_id sku_master warehouse).

(** [temp_violations["weight_kg"].sum()], in exact arithmetic. *)
Definition weight_at_risk (violations : list (SkuRow * option SlotRow)) : Q :=
  foldr Qplus 0 ((λ r, weight_kg r.1) <$> violations).

(** ** Chaos score (lines 182-189) *)

Definition temp_penalty (violation_count : nat) : Q :=
  Py.min 25 (Py.mul (Py.float violation_count) (Py.lit 0.05)).

Definition shortcut_penalty (suspicious_picker_count : nat) : Q :=
  Py.min 15 (Py.int (suspicious_picker_count * 5)).

Definition aisle_b_penalty (pct_b : Q) : Q := Py.min 20 pct_b.

Definition chaos_score (violation_count suspicious_picker_count : nat) (pct_b : Q) : Q :=
  Py.round1
    (Py.sub (Py.sub (Py.sub 100 (temp_penalty violation_count))
                    (shortcut_penalty suspicious_picker_count))
            (aisle_b_penalty pct_b)).

(** ** Forklift dead-zone (lines 149-162) *)

(** [picker_movement["hour"] = picker_movement["order_timestamp"].dt.hour]:
    the column is added to the table itself, or replaced when present. *)
Definition assign_hour (pm : PickerTable) : PickerTable :=
  mk_picker_table (pk_rows pm) (Some ((λ r, dt_hour (p_order_timestamp r)) <$> pk_rows pm)).

Record PickerSlotRow := mk_picker_slot {
  ps_picker : PickerRow; ps_hour : Z;
  ps_current_slot : option string; ps_aisle : option string }.

Definition picker_with_slot (rows : list (PickerRow * Z)) (sku_master : list SkuRow)
    : list PickerSlotRow :=
  (λ r, let slot := snd <$> r.2 in
        mk_picker_slot r.1.1 r.1.2 slot (Pd.extract_upper slot))
    <$> Pd.merge_left (λ r, p_sku_id r.1) fst rows
          ((λ s, (sku_id s, current_slot s)) <$> sku_master).

(** Distinct pickers in aisle B per hour; the group-by needs the column
    ["hour"] to be there. *)
Definition aisle_b_density (pm : PickerTable) (sku_master : list SkuRow)
    : option (list (Z * nat)) :=
  hours ← pk_hour pm;
  let pws := picker_with_slot (zip (pk_rows pm) hours) sku_master in
  Some (prod_map id (λ g, length (remove_dups ((λ r, p_picker_id (ps_picker r)) <$> g)))
          <$> Pd.groupby Z.leb ps_hour
                (filter (λ r, ps_aisle r = Some "B"%string) pws)).

(** ** Phase-1 roadmap (lines 200-208) *)

(** [sort_values("order_count", ascending=False)] with the default sort
    kind.  The script does not choose the algorithm, so it is an interface
    here; [SortContract] below is what every sort kind guarantees. *)
Class SortValues := sort_values_desc : list (string * nat) -> list (string * nat).

Definition sku_velocity (orders : list OrderRow) : list (string * nat) :=
  Pd.groupby_size String.leb (o_sku_id <$> orders).

Definition phase1_skus `{SortValues} (orders : list OrderRow) (sku_master : list SkuRow)
    : list (string * nat * option SkuRow) :=
  Pd.merge_left fst sku_id
    (Pd.head 50 (sort_values_desc (sku_velocity orders))) sku_master.

(** A sort kind that keeps the first-seen order of equal counts: insertion
    from the right, in front of the first entry whose count is not larger. *)
Fixpoint insert_desc (x : string * nat) (l : list (string * nat)) : list (string * nat) :=
  match l with
  | [] => [x]
  | y :: l' => if (y.2 <=? x.2)%nat then x :: l else y :: insert_desc x l'
  end.

Definition stable_sort_desc : SortValues := foldr insert_desc [].

(** What every sort kind of [sort_values] guarantees: the same rows,
    counts from largest to smallest. *)
Class SortContract (S : SortValues) : Prop := {
  sort_values_perm : forall l, sort_values_desc l ≡ₚ l;
  sort_values_sorted : forall l,
    StronglySorted (λ a b, b.2 <= a.2)%nat (sort_values_desc l) }.

(** A sort kind is stable when rows of equal count keep their order. *)
Definition SortStable (S : SortValues) : Prop :=
  forall l c, filter (λ r, r.2 = c) (sort_values_desc l) = filter (λ r, r.2 = c) l.

(** A sort kind that meets the contract and is not stable. *)
Definition reversing_sort_desc : SortValues := λ l, stable_sort_desc (reverse l).

(** One order of SKU S1, of which the master holds 51 rows. *)
Definition crowded_orders : list OrderRow :=
  [ mk_order "O1" "S1" (mk_datetime 2024 1 1 19 0 0) ].

Definition crowded_sku_master : list SkuRow :=
  replicate 51 (mk_sku "S1" "staples" 1 "A1" "ambient").

(** Orders of three SKUs, two of them ordered twice. *)
Definition roadmap_orders : list OrderRow :=
  (λ k, mk_order "O" k (mk_datetime 2024 1 1 19 0 0))
    <$> ["S2"; "S1"; "S3"; "S1"; "S2"]%string.

Definition roadmap_sku_master : list SkuRow :=
  [ mk_sku "S1" "dairy" 1 "A1" "cold";
    mk_sku "S2" "snacks" 2 "B1" "ambient" ].

(** ** The report (lines 28-246) *)

(** The shortcut-picker detector (lines 90-97) divides by a picker's total
    distance and takes a quantile of the ratios; what it yields for a total
    distance of zero is left open by the specification.  Its result enters
    the report only through the number of flagged pickers, so it is an
    interface here. *)
Class ShortcutDetector := shortcut_pickers : list PickerRow -> list string.

Record Env := mk_env {
  picker_movement : PickerTable;
  orders : list OrderRow;
  warehouse : list SlotRow;
  sku_master : list SkuRow;
  final_slotting : Frame }.

Record Report := mk_report {
  r_pct_b : Q;
  r_decimal_drift : Alert (nat * list (string * string * Q));
  r_shortcut_pickers : list string;
  r_ghost : Alert (list SkuRow);
  r_violation_count : nat;
  r_weight_at_risk : Q;
  r_aisle_b_density : list (Z * nat);
  r_chaos_score : Q;
  r_phase1_skus : list (string * nat * option SkuRow);
  r_slotting_shown : list (list string);
  r_slotting_export : Frame }.

(** The script as a computation over the loaded tables that may stop.
    [run] follows the statements in their order.  The loaded tables are the
    ones after lines 28-31 (files read, timestamps parsed).  The two charts
    and the sensitivity tiles (lines 118-133, 164-171, 213-232) only read
    tables and derived frames and have no entry in the report. *)
Definition M (A : Type) : Type := Env -> option (A * Env).

#[export] Instance M_ret : MRet M := λ A a env, Some (a, env).
#[export] Instance M_bind : MBind M := λ A B f m env,
  match m env with Some (a, env') => f a env' | None => None end.

Definition get : M Env := λ env, Some (env, env).
Definition put (env : Env) : M unit := λ _, Some (tt, env).
Definition lift {A} (o : option A) : M A := λ env, (λ a, (a, env)) <$> o.

Definition set_picker_movement (pm : PickerTable) (env : Env) : Env :=
  mk_env pm (orders env) (warehouse env) (sku_master env) (final_slotting env).

Definition run `{SortValues} `{ShortcutDetector} : M Report :=
  env ← get;
  pct ← lift (pct_b (aisle_traffic (orders_with_slot (orders env) (sku_master env))));
  let drift := decimal_drift_tab (sku_master env) in
  let shortcut := shortcut_pickers (pk_rows (picker_movement env)) in
  let ghost := ghost_tab (sku_master env) (warehouse env) in
  let violations := temp_violations (sku_master env) (warehouse env) in
  _ ← put (set_picker_movement (assign_hour (picker_movement env)) env);
  env ← get;
  density ← lift (aisle_b_density (picker_movement env) (sku_master env));
  let chaos := chaos_score (length violations) (length shortcut) pct in
  let phase1 := phase1_skus (orders env) (sku_master env) in
  mret (mk_report pct drift shortcut ghost (length violations)
          (weight_at_risk violations) density chaos phase1
          (Pd.head 20 (fr_rows (final_slotting env))) (final_slotting env)).

(** A detector that flags nobody, and five small loaded tables. *)
Definition no_shortcut_pickers : ShortcutDetector := λ _, [].

Definition loaded_example : Env :=
  mk_env
    (mk_picker_table
       [ mk_picker "P1" "O1" "S2" 12 (mk_datetime 2024 1 1 19 5 0) ] None)
    roadmap_orders ghost_example_warehouse roadmap_sku_master
    (mk_frame ["sku_id"; "new_slot"]%string [["S1"; "B7"]%string]).

(** ** Peak-hour heat map (lines 120-123) *)

(** [orders_with_slot["hour"]]: the hour of the order's timestamp. *)
Definition os_hour (r : OrderSlotRow) : Z := dt_hour (o_order_timestamp (os_order r)).

Definition peak_orders (ows : list OrderSlotRow) : list OrderSlotRow :=
  filter (λ r, os_hour r = 19%Z) ows.

Definition aisle_counts (ows : list OrderSlotRow) : list (string * nat) :=
  Pd.groupby_size String.leb (omap os_aisle (peak_orders ows)).

(** ** Sensitivity analysis (lines 213-232) *)

Inductive Resilience := HighResilience | MediumResilience | LowResilience.

Record Sensitivity := mk_sensitivity {
  s_peak_hour : Z;
  s_peak_orders_count : nat;
  s_active_pickers : nat;
  s_spike_orders : Z;
  s_required_pickers : Z;
  s_additional_pickers : Z;
  s_resilience : Resilience }.

Definition peak_hour (ows : list OrderSlotRow) : option Z :=
  Pd.idxmax (Pd.groupby_size Z.leb (os_hour <$> ows)).

Definition peak_orders_count (ows : list OrderSlotRow) (hour : Z) : nat :=
  length (filter (λ r, os_hour r = hour) ows).

(** Distinct pickers with a movement in the given hour; the selection reads
    the column ["hour"] of the picker table. *)
Definition active_pickers (pm : PickerTable) (hour : Z) : option nat :=
  hours ← pk_hour pm;
  Some (length (remove_dups
          ((λ r, p_picker_id r.1) <$> filter (λ r, r.2 = hour) (zip (pk_rows pm) hours)))).

Definition resilience (additional_pickers : Z) : Resilience :=
  if (additional_pickers <=? 2)%Z then HighResilience
  else if (additional_pickers <=? 4)%Z then MediumResilience
  else LowResilience.

(** The quotient of two Python integers is the float nearest to the exact
    quotient, and raises on a zero divisor; so does an integer divided by a
    float, after the integer is converted. *)
Definition sensitivity (ows : list OrderSlotRow) (pm : PickerTable) : option Sensitivity :=
  peak ← peak_hour ows;
  let peak_orders_count := peak_orders_count ows peak in
  active ← active_pickers pm peak;
  orders_per_picker ← Py.div (Py.int peak_orders_count) (Py.int active);
  let spike_orders := Py.trunc (Py.mul (Py.float peak_orders_count) (Py.lit 1.2)) in
  ratio ← Py.div (Py.rnd (inject_Z spike_orders)) orders_per_picker;
  let required_pickers := Py.ceil ratio in
  let additional_pickers := Z.max 0 (required_pickers - Z.of_nat active) in
  Some (mk_sensitivity peak peak_orders_count active spike_orders required_pickers
          additional_pickers (resilience additional_pickers)).

(** The report followed by the sensitivity tiles. *)
Definition run_with_sensitivity `{SortValues} `{ShortcutDetector} : M (Report * Sensitivity) :=
  report ← run;
  env ← get;
  tiles ← lift (sensitivity (orders_with_slot (orders env) (sku_master env))
                            (picker_movement env));
  mret (report, tiles).

(* ================================================================== *)
(** * Properties *)
(* ================================================================== *)

(** ** Numbers *)

Lemma py_min_Qmin a b : Py.min a b == Qmin a b.
Proof.
  unfold Py.min. destruct (Qle_bool a b) eqn:E.
  - apply Qle_bool_iff in E. symmetry. now apply Q.min_l.
  - assert (b <= a).
    { destruct (Qlt_le_dec a b) as [H|H]; [|exact H].
      apply Qlt_le_weak, Qle_bool_iff in H. congruence. }
    symmetry. now apply Q.min_r.
Qed.

Lemma py_min_le_l a b : Py.min a b <= a.
Proof. rewrite py_min_Qmin. apply Q.le_min_l. Qed.

Lemma py_min_le_r a b : Py.min a b <= b.
Proof. rewrite py_min_Qmin. apply Q.le_min_r. Qed.

Lemma py_min_glb a b c : c <= a -> c <= b -> c <= Py.min a b.
Proof. intros. rewrite py_min_Qmin. now apply Q.min_glb. Qed.

(** The rounded integer is within one half of the number. *)
Lemma round_half_even_near q :
  - (1 # 2) <= q - inject_Z (Py.round_half_even q) <= 1 # 2.
Proof.
  unfold Py.round_half_even.
  pose proof (Qfloor_le q) as Hlo. pose proof (Qlt_floor q) as Hhi.
  rewrite inject_Z_plus in Hhi. change (inject_Z 1) with 1 in Hhi.
  destruct (Qcompare_spec (q - inject_Z (Qfloor q)) (1 # 2)) as [E|E|E];
    [destruct (Z.even (Qfloor q))| |];
    rewrite ?inject_Z_plus; change (inject_Z 1) with 1;
    generalize dependent (inject_Z (Qfloor q)); intros; lra.
Qed.

(** Rounding stays between integer bounds. *)
Lemma round_half_even_between (a b : Z) q :
  inject_Z a <= q <= inject_Z b ->
  (a <= Py.round_half_even q <= b)%Z.
Proof.
  intros [Ha Hb].
  assert (Hfa : (a <= Qfloor q)%Z).
  { rewrite <- (Qfloor_Z a). now apply Qfloor_resp_le. }
  assert (Hfb : (Qfloor q <= b)%Z).
  { rewrite <- (Qfloor_Z b). now apply Qfloor_resp_le. }
  pose proof (Qfloor_le q) as Hlo.
  assert (Hstep : inject_Z (Qfloor q) < q -> (Qfloor q + 1 <= b)%Z).
  { intros H. assert (inject_Z (Qfloor q) < inject_Z b) as H'.
    { eapply Qlt_le_trans; eauto. }
    rewrite <- Zlt_Qlt in H'. lia. }
  unfold Py.round_half_even.
  destruct (Qcompare_spec (q - inject_Z (Qfloor q)) (1 # 2)) as [E|E|E].
  - destruct (Z.even (Qfloor q)); [lia|].
    split; [lia|]. apply Hstep.
    generalize dependent (inject_Z (Qfloor q)); intros; lra.
  - lia.
  - split; [lia|]. apply Hstep.
    generalize dependent (inject_Z (Qfloor q)); intros; lra.
Qed.

#[export] Instance round_half_even_comp : Proper (Qeq ==> eq) Py.round_half_even.
Proof.
  intros x y E. unfold Py.round_half_even.
  rewrite (Qfloor_comp _ _ E).
  assert (C : Qcompare (x - inject_Z (Qfloor y)) (1 # 2) =
              Qcompare (y - inject_Z (Qfloor y)) (1 # 2)) by now rewrite E.
  now rewrite C.
Qed.

(** ** Floats *)

Lemma pow2_pos e : 0 < 2 ^ e.
Proof. apply Qpower_0_lt. reflexivity. Qed.

Lemma pow2_succ e : 2 ^ (e + 1) == 2 * 2 ^ e.
Proof. rewrite Qpower_plus by discriminate. rewrite Qpower_1_r. ring. Qed.

Lemma pow2_log2 (a : Z) : (0 < a)%Z ->
  2 ^ Z.log2 a <= inject_Z a /\ inject_Z a < 2 * 2 ^ Z.log2 a.
Proof.
  intros Ha. destruct (Z.log2_spec a Ha) as [H1 H2].
  pose proof (Z.log2_nonneg a) as Hn.
  rewrite <- pow2_succ.
  change 2 with (inject_Z 2).
  rewrite <- !Zpower_Qpower by lia.
  rewrite <- Zle_Qle, <- Zlt_Qlt. split; [exact H1|]. exact H2.
Qed.

Lemma mant_pos : 0 < inject_Z Py.mant.
Proof. reflexivity. Qed.

Lemma mant_pow : 2 ^ 52 == inject_Z Py.mant.
Proof. reflexivity. Qed.

Lemma scaled_bounds (A B PA PB T s : Q) :
  0 < B -> 0 < PA -> 0 < PB -> 0 < T ->
  PA <= A -> A < 2 * PA -> PB <= B -> B < 2 * PB ->
  s == A / B / (PA / PB / T) ->
  T < 2 * s /\ s < 2 * T.
Proof.
  intros HB HPA HPB HT A1 A2 B1 B2 Hs.
  assert (E : s == (A * PB * T) / (B * PA)).
  { rewrite Hs. field. repeat split; intros Z0; lra. }
  assert (HD : 0 < B * PA) by nra.
  assert (P1 : 0 < T * PA * (2 * PB - B)).
  { repeat apply Qmult_lt_0_compat; lra. }
  assert (P2 : 0 <= T * PB * (A - PA)).
  { repeat apply Qmult_le_0_compat; lra. }
  assert (P3 : 0 < T * B * (2 * PA - A)).
  { repeat apply Qmult_lt_0_compat; lra. }
  assert (P4 : 0 <= T * A * (B - PB)).
  { repeat apply Qmult_le_0_compat; lra. }
  assert (L : T * (1 # 2) < s).
  { rewrite E. apply Qlt_shift_div_l; [exact HD|]. lra. }
  split; [lra|].
  rewrite E. apply Qlt_shift_div_r; [exact HD|]. lra.
Qed.

(** Dividing by a positive number and multiplying back. *)
Lemma div_mul_le (p x c : Q) : 0 < c -> (p <= x / c <-> p * c <= x).
Proof.
  intros Hc. split; intros H.
  - setoid_replace x with (x / c * c) using relation Qeq by (field; intros Z0; lra).
    apply Qmult_le_compat_r; [exact H|lra].
  - now apply Qle_shift_div_l.
Qed.

Lemma div_mul_lt (p x c : Q) : 0 < c -> (x / c < p <-> x < p * c).
Proof.
  intros Hc. split; intros H.
  - setoid_replace x with (x / c * c) using relation Qeq by (field; intros Z0; lra).
    apply Qmult_lt_compat_r; [exact Hc|exact H].
  - now apply Qlt_shift_div_r.
Qed.

(** The exponent puts the scaled number between [Py.mant] and [2 * Py.mant]. *)
Lemma ulp_exp_spec q : 0 < q ->
  inject_Z Py.mant * 2 ^ Py.ulp_exp q <= q /\ q < 2 * inject_Z Py.mant * 2 ^ Py.ulp_exp q.
Proof.
  intros Hq. unfold Py.ulp_exp.
  rewrite (Qabs_pos q) by now apply Qlt_le_weak.
  assert (Hnum : (0 < Qnum q)%Z).
  { destruct q as [a b]. unfold Qlt in Hq. simpl in *. lia. }
  replace (Z.abs (Qnum q)) with (Qnum q) by lia.
  set (la := Z.log2 (Qnum q)). set (lb := Z.log2 (Z.pos (Qden q))).
  destruct (pow2_log2 (Qnum q) Hnum) as [A1 A2].
  destruct (pow2_log2 (Z.pos (Qden q)) ltac:(lia)) as [B1 B2].
  fold la in A1, A2. fold lb in B1, B2.
  assert (Hs : q / 2 ^ (la - lb - 52) ==
               inject_Z (Qnum q) / inject_Z (Z.pos (Qden q))
                 / (2 ^ la / 2 ^ lb / inject_Z Py.mant)).
  { rewrite !Qpower_minus by discriminate. rewrite mant_pow.
    rewrite <- (Qmake_Qdiv (Qnum q) (Qden q)). destruct q; reflexivity. }
  assert (HB : 0 < inject_Z (Z.pos (Qden q))) by reflexivity.
  destruct (scaled_bounds _ _ _ _ _ _ HB (pow2_pos la) (pow2_pos lb)
              mant_pos A1 A2 B1 B2 Hs) as [L U].
  pose proof (pow2_pos (la - lb - 52)) as Pe.
  destruct (Qle_bool (inject_Z Py.mant) (q / 2 ^ (la - lb - 52))) eqn:E.
  - apply Qle_bool_iff in E. split.
    + now apply (proj1 (div_mul_le _ _ _ Pe)).
    + now apply (proj1 (div_mul_lt _ _ _ Pe)).
  - assert (Hlt : q / 2 ^ (la - lb - 52) < inject_Z Py.mant).
    { destruct (Qlt_le_dec (q / 2 ^ (la - lb - 52)) (inject_Z Py.mant)) as [H|H]; [exact H|].
      apply Qle_bool_iff in H. congruence. }
    assert (E2 : 2 * 2 ^ (la - lb - 52 - 1) == 2 ^ (la - lb - 52)).
    { rewrite <- pow2_succ. now replace (la - lb - 52 - 1 + 1)%Z with (la - lb - 52)%Z by lia. }
    pose proof (pow2_pos (la - lb - 52 - 1)) as Pe'.
    apply (proj1 (div_mul_lt _ _ _ Pe)) in Hlt.
    assert (L' : inject_Z Py.mant * (1 # 2) <= q / 2 ^ (la - lb - 52)) by lra.
    apply (proj1 (div_mul_le _ _ _ Pe)) in L'.
    rewrite <- E2 in Hlt, L'. clear - Hlt L' Pe'.
    generalize dependent (2 ^ (la - lb - 52 - 1)). intros E.
    generalize (inject_Z Py.mant). intros; split; lra.
Qed.

Lemma round_half_even_mono x y : x <= y -> (Py.round_half_even x <= Py.round_half_even y)%Z.
Proof.
  intros Hxy.
  pose proof (Qfloor_resp_le _ _ Hxy) as Hf.
  destruct (Z.eq_dec (Qfloor x) (Qfloor y)) as [E|E].
  - unfold Py.round_half_even. rewrite E.
    destruct (Qcompare_spec (x - inject_Z (Qfloor y)) (1 # 2)) as [Ex|Ex|Ex];
    destruct (Qcompare_spec (y - inject_Z (Qfloor y)) (1 # 2)) as [Ey|Ey|Ey];
    destruct (Z.even (Qfloor y)); try lia;
    exfalso; generalize dependent (inject_Z (Qfloor y)); intros; lra.
  - assert (H1 : (Py.round_half_even x <= Qfloor x + 1)%Z).
    { unfold Py.round_half_even. destruct (Qcompare _ _); [destruct (Z.even _)| |]; lia. }
    assert (H2 : (Qfloor y <= Py.round_half_even y)%Z).
    { unfold Py.round_half_even. destruct (Qcompare _ _); [destruct (Z.even _)| |]; lia. }
    lia.
Qed.

#[export] Instance rnd_comp : Proper (Qeq ==> eq) Py.rnd.
Proof. intros x y E. unfold Py.rnd. now rewrite (Qred_complete _ _ E). Qed.

(** The value of [Py.rnd] on a positive number: a mantissa of 53 bits times a
    power of two. *)
Lemma rnd_pos q : 0 < q ->
  exists (m e : Z),
    Py.rnd q == inject_Z m * 2 ^ e /\
    m = Py.round_half_even (q / 2 ^ e) /\
    (Py.mant <= m <= 2 * Py.mant)%Z /\
    inject_Z Py.mant * 2 ^ e <= q /\ q < 2 * inject_Z Py.mant * 2 ^ e.
Proof.
  intros Hq. unfold Py.rnd.
  pose proof (Qred_correct q) as Er.
  destruct (Qeq_bool (Qred q) 0) eqn:E0.
  { apply Qeq_bool_eq in E0. rewrite Er in E0. rewrite E0 in Hq. inversion Hq. }
  assert (Hq' : 0 < Qred q) by now rewrite Er.
  destruct (ulp_exp_spec (Qred q) Hq') as [L U].
  generalize dependent (Py.ulp_exp (Qred q)). intros e L U.
  rewrite Er in L, U.
  assert (Es : Qred q / 2 ^ e == q / 2 ^ e) by now rewrite Er.
  exists (Py.round_half_even (q / 2 ^ e)), e.
  split; [rewrite Qred_correct, Es; reflexivity|].
  split; [reflexivity|]. split; [|split; assumption].
  pose proof (pow2_pos e) as Pe.
  apply round_half_even_between. split.
  - now apply div_mul_le.
  - apply Qlt_le_weak. apply div_mul_lt; [exact Pe|].
    rewrite inject_Z_mult. exact U.
Qed.

(** Rounding keeps the order of non-negative numbers. *)
Lemma rnd_mono x y : 0 <= x -> x <= y -> Py.rnd x <= Py.rnd y.
Proof.
  intros Hx Hxy.
  destruct (Qlt_le_dec 0 x) as [Hx0|Hx0].
  - assert (Hy0 : 0 < y) by lra.
    destruct (rnd_pos x Hx0) as (mx & ex & Ex & Emx & [Mx1 Mx2] & Lx & Ux).
    destruct (rnd_pos y Hy0) as (my & ey & Ey & Emy & [My1 My2] & Ly & Uy).
    rewrite Ex, Ey.
    pose proof (pow2_pos ex) as Pex. pose proof (pow2_pos ey) as Pey.
    pose proof mant_pos as Pm.
    destruct (Z_lt_le_dec ey ex) as [Hlt|Hle].
    { exfalso.
      assert (H : 2 * 2 ^ ey <= 2 ^ ex).
      { rewrite <- pow2_succ. apply Qpower_le_compat_l; [lia|discriminate]. }
      assert (H' : inject_Z Py.mant * (2 * 2 ^ ey) <= inject_Z Py.mant * 2 ^ ex).
      { apply Qmult_le_l; assumption. }
      lra. }
    destruct (Z.eq_dec ex ey) as [->|Hne].
    + apply Qmult_le_compat_r; [|lra].
      rewrite <- Zle_Qle. subst mx my. apply round_half_even_mono.
      apply Qmult_le_compat_r; [exact Hxy|].
      apply Qlt_le_weak, Qinv_lt_0_compat, Pey.
    + assert (H : 2 * 2 ^ ex <= 2 ^ ey).
      { rewrite <- pow2_succ. apply Qpower_le_compat_l; [lia|discriminate]. }
      apply Qle_trans with (inject_Z (2 * Py.mant) * 2 ^ ex).
      { apply Qmult_le_compat_r; [|lra]. now rewrite <- Zle_Qle. }
      apply Qle_trans with (inject_Z Py.mant * 2 ^ ey).
      { rewrite inject_Z_mult. change (inject_Z 2) with 2.
        assert (H' : inject_Z Py.mant * (2 * 2 ^ ex) <= inject_Z Py.mant * 2 ^ ey).
        { apply Qmult_le_l; assumption. }
        lra. }
      apply Qmult_le_compat_r; [|lra]. now rewrite <- Zle_Qle.
  - assert (E : x == 0) by lra. rewrite (rnd_comp _ _ E).
    change (Py.rnd 0) with 0.
    destruct (Qlt_le_dec 0 y) as [Hy0|Hy0].
    + destruct (rnd_pos y Hy0) as (my & ey & Ey & _ & [My1 _] & _).
      rewrite Ey. apply Qmult_le_0_compat.
      * change 0 with (inject_Z 0). rewrite <- Zle_Qle. unfold Py.mant in My1. lia.
      * apply Qlt_le_weak, pow2_pos.
    + assert (E' : y == 0) by lra. rewrite (rnd_comp _ _ E'). discriminate.
Qed.

Lemma rnd_nonneg x : 0 <= x -> 0 <= Py.rnd x.
Proof. intros H. change 0 with (Py.rnd 0) at 1. apply rnd_mono; lra. Qed.

(** Between two floats the rounded number stays. *)
Lemma rnd_between (a b x : Q) :
  Py.rnd a == a -> Py.rnd b == b -> 0 <= a -> a <= x <= b ->
  a <= Py.rnd x <= b.
Proof.
  intros Ea Eb Ha [Hax Hxb]. split.
  - apply Qle_trans with (Py.rnd a); [rewrite Ea; apply Qle_refl|].
    apply rnd_mono; lra.
  - apply Qle_trans with (Py.rnd b); [|rewrite Eb; apply Qle_refl].
    apply rnd_mono; lra.
Qed.

#[export] Instance py_sub_comp : Proper (Qeq ==> Qeq ==> eq) Py.sub.
Proof. intros a a' Ea b b' Eb. unfold Py.sub. apply rnd_comp. now rewrite Ea, Eb. Qed.

#[export] Instance py_mul_comp : Proper (Qeq ==> Qeq ==> eq) Py.mul.
Proof. intros a a' Ea b b' Eb. unfold Py.mul. apply rnd_comp. now rewrite Ea, Eb. Qed.

#[export] Instance round1_comp : Proper (Qeq ==> eq) Py.round1.
Proof. intros x y E. unfold Py.round1. apply rnd_comp. now rewrite E. Qed.

Lemma int_nonneg n : 0 <= Py.int n.
Proof. unfold Py.int. change 0 with (inject_Z 0). rewrite <- Zle_Qle. lia. Qed.

Lemma float_nonneg n : 0 <= Py.float n.
Proof. apply rnd_nonneg, int_nonneg. Qed.

Lemma float_le (a b : nat) : (a <= b)%nat -> Py.float a <= Py.float b.
Proof.
  intros H. apply rnd_mono; [apply int_nonneg|].
  unfold Py.int. rewrite <- Zle_Qle. lia.
Qed.

Lemma float_pos (a : nat) : (1 <= a)%nat -> 1 <= Py.float a.
Proof. intros H. change 1 with (Py.float 1) at 1. now apply float_le. Qed.

(** ** Chaos score *)


Lemma temp_penalty_bounds v : 0 <= temp_penalty v <= 25.
Proof.
  unfold temp_penalty. split; [|apply py_min_le_l].
  apply py_min_glb; [lra|]. apply rnd_nonneg.
  apply Qmult_le_0_compat; [apply float_nonneg|discriminate].
Qed.

Lemma shortcut_penalty_bounds s : 0 <= shortcut_penalty s <= 15.
Proof.
  unfold shortcut_penalty. split; [|apply py_min_le_l].
  apply py_min_glb; [lra|]. apply int_nonneg.
Qed.

Lemma aisle_b_penalty_bounds p : 0 <= p -> 0 <= aisle_b_penalty p <= 20.
Proof.
  intros Hp. unfold aisle_b_penalty. split; [|apply py_min_le_l].
  apply py_min_glb; [lra|exact Hp].
Qed.

(** The caps alone bound the score; the percentage need not stay below 100. *)
Lemma chaos_score_bounds (v s : nat) (p : Q) :
  0 <= p -> 40 <= chaos_score v s p <= 100.
Proof.
  intros Hp.
  pose proof (temp_penalty_bounds v) as Ht.
  pose proof (shortcut_penalty_bounds s) as Hs.
  pose proof (aisle_b_penalty_bounds p Hp) as Ha.
  unfold chaos_score.
  generalize dependent (temp_penalty v). intros t Ht.
  generalize dependent (shortcut_penalty s). intros c Hs.
  generalize dependent (aisle_b_penalty p). intros a Ha.
  assert (H1 : 75 <= Py.sub 100 t <= 100).
  { apply rnd_between; [reflexivity|reflexivity|discriminate|lra]. }
  assert (H2 : 60 <= Py.sub (Py.sub 100 t) c <= 100).
  { apply rnd_between; [reflexivity|reflexivity|discriminate|lra]. }
  assert (H3 : 40 <= Py.sub (Py.sub (Py.sub 100 t) c) a <= 100).
  { apply rnd_between; [reflexivity|reflexivity|discriminate|lra]. }
  generalize dependent (Py.sub (Py.sub (Py.sub 100 t) c) a). intros x Hx.
  unfold Py.round1.
  destruct (round_half_even_between 400 1000 (x * 10)) as [Hlo Hhi].
  { change (inject_Z 400) with 400. change (inject_Z 1000) with 1000. lra. }
  rewrite Zle_Qle in Hlo, Hhi.
  change (inject_Z 400) with 400 in Hlo. change (inject_Z 1000) with 1000 in Hhi.
  generalize dependent (inject_Z (Py.round_half_even (x * 10))).
  intros k Hlo Hhi.
  apply rnd_between; [reflexivity|reflexivity|discriminate|].
  assert (E : k / 10 == k * (1 # 10)) by reflexivity.
  rewrite E. lra.
Qed.

(** C2. For all counts and every aisle-B percentage between 0 and 100 the
    chaos score is at least 40.0 and at most 100.0: the penalties are capped
    at 25, 15 and 20, so the score does not fall below 100 - 25 - 15 - 20. *)
Theorem chaos_score_range (v s : nat) (p : Q) :
  0 <= p <= 100 ->
  40 <= chaos_score v s p <= 100 /\
  temp_penalty v <= 25 /\ shortcut_penalty s <= 15 /\ aisle_b_penalty p <= 20.
Proof.
  intros [Hp _]. split; [now apply chaos_score_bounds|].
  split; [apply temp_penalty_bounds|].
  split; [apply shortcut_penalty_bounds|now apply aisle_b_penalty_bounds].
Qed.

Lemma chaos_score_range_witness :
  0 <= 30 <= 100 /\
  (40 <= chaos_score 100 2 30 <= 100 /\
   temp_penalty 100 <= 25 /\ shortcut_penalty 2 <= 15 /\ aisle_b_penalty 30 <= 20).
Proof.
  assert (H : 0 <= 30 <= 100) by (split; discriminate).
  exact (conj H (chaos_score_range 100 2 30 H)).
Defined.

(** ** Comparisons *)

Lemma py_gt_spec a b : Py.gt a b <-> b < a.
Proof.
  unfold Py.gt. destruct (Qle_bool a b) eqn:E; simpl.
  - apply Qle_bool_iff in E. split; [tauto|]. intros H. lra.
  - split; [intros _|tauto].
    destruct (Qlt_le_dec b a) as [H|H]; [exact H|].
    apply Qle_bool_iff in H. congruence.
Qed.

Lemma py_lt_spec a b : Py.lt a b <-> a < b.
Proof. unfold Py.lt. apply (py_gt_spec b a). Qed.

Lemma py_max_Qmax a b : Py.max a b == Qmax a b.
Proof.
  unfold Py.max. destruct (Qle_bool b a) eqn:E.
  - apply Qle_bool_iff in E. symmetry. now apply Q.max_l.
  - assert (a <= b).
    { destruct (Qlt_le_dec b a) as [H|H]; [|exact H].
      apply Qlt_le_weak, Qle_bool_iff in H. congruence. }
    symmetry. now apply Q.max_r.
Qed.

Lemma py_min_nan_mono u u' p : u <= u' -> Py.min_nan u p <= Py.min_nan u' p.
Proof.
  intros H. destruct p as [p|]; simpl; [|exact H].
  rewrite !py_min_Qmin. apply Q.min_le_compat_r, H.
Qed.

Lemma py_max_nan_mono l l' p : l' <= l -> Py.max_nan l' p <= Py.max_nan l p.
Proof.
  intros H. destruct p as [p|]; simpl; [|exact H].
  rewrite !py_max_Qmax. apply Q.max_le_compat_r, H.
Qed.

(** ** Decimal drift *)

Lemma sublist_filter_impl {A} (P Q : A -> Prop)
    `{!forall x, Decision (P x)} `{!forall x, Decision (Q x)} (l : list A) :
  (forall x, P x -> Q x) -> sublist (filter P l) (filter Q l).
Proof.
  intros Himp. induction l as [|x l IH]; [constructor|].
  rewrite !filter_cons.
  destruct (decide (P x)) as [Hp|Hp].
  - destruct (decide (Q x)) as [Hq|Hq]; [now apply sublist_skip|].
    destruct Hq. auto.
  - destruct (decide (Q x)); [now apply sublist_cons|exact IH].
Qed.

Lemma quantile_nonempty q (xs : list Q) : xs <> [] -> is_Some (Pd.quantile q xs).
Proof.
  intros Hne. unfold Pd.quantile.
  destruct (merge_sort _ xs) as [|x0 sorted] eqn:E; [|eauto].
  pose proof (merge_sort_Permutation (λ a b : Q, Qle_bool a b) xs) as P.
  rewrite E in P. apply Permutation_nil in P. contradiction.
Qed.

Lemma elem_of_decimal_drift_with upper lower (sku_master : list SkuRow) s :
  s ∈ decimal_drift_with upper lower sku_master <->
  s ∈ sku_master /\
  (Py.min_nan upper (Pd.quantile 0.995 (weight_kg <$> sku_master)) < weight_kg s \/
   weight_kg s < Py.max_nan lower (Pd.quantile 0.005 (weight_kg <$> sku_master))).
Proof.
  unfold decimal_drift_with. rewrite list_elem_of_filter.
  rewrite orb_True, py_gt_spec, py_lt_spec. tauto.
Qed.


(** C7. Raising the upper domain limit or lowering the lower one never adds
    a SKU to the flagged set: what is flagged under the new limits is
    flagged under the old ones, in the same order. *)
Theorem decimal_drift_monotone (upper lower upper' lower' : Q)
    (sku_master : list SkuRow) :
  upper <= upper' -> lower' <= lower ->
  decimal_drift_with upper' lower' sku_master
    ⊆ decimal_drift_with upper lower sku_master /\
  sublist (decimal_drift_with upper' lower' sku_master)
          (decimal_drift_with upper lower sku_master).
Proof.
  intros Hu Hl.
  pose proof (py_min_nan_mono upper upper'
                (Pd.quantile 0.995 (weight_kg <$> sku_master)) Hu) as Hmin.
  pose proof (py_max_nan_mono lower lower'
                (Pd.quantile 0.005 (weight_kg <$> sku_master)) Hl) as Hmax.
  unfold decimal_drift_with.
  split.
  - intros s. rewrite !list_elem_of_filter.
    rewrite !orb_True, !py_gt_spec, !py_lt_spec.
    intros [[H|H] Hin]; (split; [|exact Hin]); [left|right]; lra.
  - apply sublist_filter_impl. intros s.
    rewrite !orb_True, !py_gt_spec, !py_lt_spec.
    intros [H|H]; [left|right]; lra.
Qed.

Lemma decimal_drift_monotone_witness :
  25 <= 40 /\ 0.001 <= 0.01 /\
  decimal_drift_with 40 0.001 drift_example ⊆ decimal_drift_with 25 0.01 drift_example /\
  sublist (decimal_drift_with 40 0.001 drift_example)
          (decimal_drift_with 25 0.01 drift_example).
Proof.
  assert (Hu : 25 <= 40) by discriminate.
  assert (Hl : 0.001 <= 0.01) by discriminate.
  exact (conj Hu (conj Hl (decimal_drift_monotone 25 0.01 40 0.001 drift_example Hu Hl))).
Defined.

(** ** Ghost inventory *)

Lemma elem_of_valid_bins (warehouse : list SlotRow) x :
  x ∈ valid_bins warehouse <-> exists w, w ∈ warehouse /\ slot_id w = x.
Proof.
  unfold valid_bins. rewrite elem_of_list_to_set, list_elem_of_fmap.
  split; intros (w & H1 & H2); eauto.
Qed.

Lemma elem_of_ghost_bins (sku_master : list SkuRow) (warehouse : list SlotRow) x :
  x ∈ ghost_bins sku_master warehouse <->
  (exists s, s ∈ sku_master /\ current_slot s = x) /\
  ~ (exists w, w ∈ warehouse /\ slot_id w = x).
Proof.
  unfold ghost_bins.
  rewrite elem_of_difference, elem_of_valid_bins, elem_of_list_to_set, list_elem_of_fmap.
  split; intros [(s & H1 & H2) Hn]; (split; [eauto|exact Hn]).
Qed.

(** C4. The ghost bins are the slot codes of the SKU master that are no
    slot of the warehouse table; when there is none the tab reports success
    and no SKU row is selected, otherwise it shows exactly the SKUs stored
    in such a slot; for the slots A1, A2, B1 and the SKU slots A1, C9 the
    ghost bins are the one slot C9. *)
Theorem ghost_bins_difference :
  (forall (sku_master : list SkuRow) (warehouse : list SlotRow),
     ghost_bins sku_master warehouse =
       list_to_set (current_slot <$> sku_master)
         ∖ list_to_set (slot_id <$> warehouse) /\
     (forall x, x ∈ ghost_bins sku_master warehouse <->
        (exists s, s ∈ sku_master /\ current_slot s = x) /\
        ~ (exists w, w ∈ warehouse /\ slot_id w = x)) /\
     match ghost_tab sku_master warehouse with
     | AlertSuccess =>
         ghost_bins sku_master warehouse = ∅ /\
         filter (λ s, current_slot s ∈ ghost_bins sku_master warehouse) sku_master = []
     | AlertError shown =>
         ghost_bins sku_master warehouse <> ∅ /\ shown <> [] /\
         forall s, s ∈ shown <->
           s ∈ sku_master /\ ~ (exists w, w ∈ warehouse /\ slot_id w = current_slot s)
     end) /\
  ghost_bins ghost_example_sku ghost_example_warehouse = {[ "C9"%string ]} /\
  ghost_tab ghost_example_sku ghost_example_warehouse =
    AlertError [ mk_sku "S2" "snacks" 2 "C9" "ambient" ].
Proof.
  split; [|split; reflexivity].
  intros sku_master warehouse.
  split; [reflexivity|]. split; [apply elem_of_ghost_bins|].
  unfold ghost_tab.
  destruct (decide (ghost_bins sku_master warehouse = ∅)) as [E|E].
  - split; [exact E|]. rewrite E. clear E.
    induction sku_master as [|s l IH]; [reflexivity|].
    rewrite filter_cons. destruct (decide _) as [H|H]; [|exact IH].
    now apply not_elem_of_empty in H.
  - split; [exact E|].
    assert (Hshown : forall s,
      s ∈ filter (λ s, current_slot s ∈ ghost_bins sku_master warehouse) sku_master <->
      s ∈ sku_master /\ ~ (exists w, w ∈ warehouse /\ slot_id w = current_slot s)).
    { intros s. rewrite list_elem_of_filter, elem_of_ghost_bins.
      split; [tauto|]. intros [Hin Hn]. eauto. }
    split; [|exact Hshown].
    apply set_choose_L in E as [x Hx].
    apply elem_of_ghost_bins in Hx as [(s & Hin & Hs) Hn].
    intros Hnil.
    assert (Hs' : s ∈ filter (λ s, current_slot s ∈ ghost_bins sku_master warehouse)
                         sku_master).
    { apply Hshown. split; [exact Hin|]. now rewrite Hs. }
    rewrite Hnil in Hs'. inversion Hs'.
Qed.

(** ** Group-by *)

Lemma elem_of_groupby {A K} `{EqDecision K} (le : K -> K -> bool) (key : A -> K)
    (rows : list A) k g :
  (k, g) ∈ Pd.groupby le key rows <->
  k ∈ key <$> rows /\ g = filter (λ r, key r = k) rows.
Proof.
  unfold Pd.groupby. rewrite list_elem_of_fmap. split.
  - intros (k' & E & Hk). inversion E; subst. split; [|reflexivity].
    rewrite merge_sort_Permutation, elem_of_remove_dups in Hk. exact Hk.
  - intros [Hk ->]. exists k. split; [reflexivity|].
    rewrite merge_sort_Permutation, elem_of_remove_dups. exact Hk.
Qed.

Lemma groupby_keys_NoDup {A K} `{EqDecision K} (le : K -> K -> bool) (key : A -> K)
    (rows : list A) :
  NoDup (Pd.groupby le key rows).*1.
Proof.
  unfold Pd.groupby. rewrite <- list_fmap_compose. simpl.
  rewrite list_fmap_id, merge_sort_Permutation. apply NoDup_remove_dups.
Qed.

Lemma elem_of_groupby_size {K} `{EqDecision K} (le : K -> K -> bool) (keys : list K) k n :
  (k, n) ∈ Pd.groupby_size le keys <->
  k ∈ keys /\ n = length (filter (λ r, r = k) keys).
Proof.
  unfold Pd.groupby_size. rewrite list_elem_of_fmap. split.
  - intros ([k' g] & E & Hg). inversion E; subst.
    apply elem_of_groupby in Hg as [Hk ->]. now rewrite list_fmap_id in Hk.
  - intros [Hk ->]. exists (k, filter (λ r, r = k) keys). split; [reflexivity|].
    apply elem_of_groupby. now rewrite list_fmap_id.
Qed.

Lemma groupby_size_keys {K} `{EqDecision K} (le : K -> K -> bool) (keys : list K) k :
  k ∈ (Pd.groupby_size le keys).*1 <-> k ∈ keys.
Proof.
  rewrite list_elem_of_fmap. split.
  - intros ([k' n] & -> & H). now apply elem_of_groupby_size in H as [H _].
  - intros H. exists (k, length (filter (λ r, r = k) keys)).
    split; [reflexivity|]. now apply elem_of_groupby_size.
Qed.

(** Every group has at least one row. *)
Lemma groupby_size_pos {K} `{EqDecision K} (le : K -> K -> bool) (keys : list K) :
  Forall (λ r, 1 <= r.2)%nat (Pd.groupby_size le keys).
Proof.
  apply Forall_forall. intros [k n] H.
  apply elem_of_groupby_size in H as [Hk ->]. simpl.
  assert (Hin : k ∈ filter (λ r, r = k) keys) by now apply list_elem_of_filter.
  destruct (filter _ keys); [inversion Hin|simpl; lia].
Qed.

Lemma sum_list_indicator {K} `{EqDecision K} (x : K) (ks : list K) :
  NoDup ks -> x ∈ ks ->
  sum_list ((λ k, if decide (x = k) then 1 else 0)%nat <$> ks) = 1%nat.
Proof.
  induction 1 as [|k ks Hk Hnd IH]; [inversion 1|].
  intros Hx. simpl. destruct (decide (x = k)) as [->|Hne].
  - assert (E : forall l : list K, k ∉ l ->
               sum_list ((λ k', if decide (k = k') then 1 else 0)%nat <$> l) = 0%nat).
    { induction l as [|y l IHl]; [reflexivity|]. intros Hy. simpl.
      destruct (decide (k = y)) as [->|_]; [destruct Hy; now left|].
      apply IHl. intros H. apply Hy. now right. }
    now rewrite E.
  - apply IH. inversion Hx; subst; [contradiction|assumption].
Qed.

Lemma sum_list_group_lengths {K} `{EqDecision K} (ks l : list K) :
  NoDup ks -> (forall x, x ∈ l -> x ∈ ks) ->
  sum_list ((λ k, length (filter (λ r, r = k) l)) <$> ks) = length l.
Proof.
  intros Hnd. induction l as [|x l IH]; intros Hall.
  - clear. induction ks as [|k ks IHk]; [reflexivity|exact IHk].
  - assert (E : forall ks' : list K,
      sum_list ((λ k, length (filter (λ r, r = k) (x :: l))) <$> ks') =
      (sum_list ((λ k, if decide (x = k) then 1 else 0) <$> ks') +
       sum_list ((λ k, length (filter (λ r, r = k) l)) <$> ks'))%nat).
    { induction ks' as [|k ks' IHk]; [reflexivity|].
      rewrite !fmap_cons. simpl sum_list. rewrite IHk, filter_cons.
      destruct (decide (x = k)); simpl; lia. }
    rewrite E, (sum_list_indicator x ks Hnd) by (apply Hall; now left).
    rewrite IH by (intros y Hy; apply Hall; now right). reflexivity.
Qed.

(** The group sizes add up to the number of rows. *)
Lemma sum_groupby_size {K} `{EqDecision K} (le : K -> K -> bool) (keys : list K) :
  sum_list (Pd.groupby_size le keys).*2 = length keys.
Proof.
  unfold Pd.groupby_size, Pd.groupby.
  rewrite <- !list_fmap_compose, list_fmap_id.
  apply sum_list_group_lengths.
  - rewrite merge_sort_Permutation. apply NoDup_remove_dups.
  - intros x Hx. rewrite merge_sort_Permutation, elem_of_remove_dups. exact Hx.
Qed.

Lemma sum_list_elem_le (n : nat) (l : list nat) : n ∈ l -> (n <= sum_list l)%nat.
Proof.
  induction l as [|m l IH]; [inversion 1|].
  intros H. simpl. inversion H; subst; [lia|]. specialize (IH ltac:(assumption)). lia.
Qed.

(** ** Aisle-B share of the traffic *)

Lemma py_div_pos a b : 0 < b -> Py.div a b = Some (Py.rnd (a / b)).
Proof.
  intros H. unfold Py.div. destruct (Qeq_bool b 0) eqn:E; [|reflexivity].
  apply Qeq_bool_eq in E. rewrite E in H. now apply Qlt_irrefl in H.
Qed.

Lemma pct_b_present (traffic : list (string * nat)) :
  Forall (λ r, 1 <= r.2)%nat traffic ->
  "B"%string ∈ traffic.*1 ->
  exists b, ("B"%string, b) ∈ traffic /\
    (1 <= b <= total_traffic traffic)%nat /\
    pct_b traffic =
      Some (Py.mul (Py.rnd (Py.float b / Py.float (total_traffic traffic))) 100).
Proof.
  intros Hpos HB. unfold pct_b.
  destruct (decide _) as [_|Hn]; [|contradiction].
  apply list_elem_of_fmap in HB as ([k b0] & Hk & Hin). simpl in Hk. subst k.
  assert (Hf : ("B"%string, b0) ∈ filter (λ r : string * nat, r.1 = "B"%string) traffic)
    by now apply list_elem_of_filter.
  destruct (filter _ traffic) as [|[k b] rest] eqn:E; [inversion Hf|].
  assert (Hb : (k, b) ∈ filter (λ r : string * nat, r.1 = "B"%string) traffic)
    by (rewrite E; now left).
  apply list_elem_of_filter in Hb as [Hk Hb]. simpl in Hk. subst k.
  exists b. split; [exact Hb|].
  assert (H1 : (1 <= b)%nat).
  { rewrite Forall_forall in Hpos. exact (Hpos _ Hb). }
  assert (H2 : (b <= total_traffic traffic)%nat).
  { apply sum_list_elem_le, list_elem_of_fmap. now exists ("B"%string, b). }
  split; [lia|]. simpl.
  rewrite py_div_pos; [reflexivity|].
  pose proof (float_pos (total_traffic traffic) ltac:(lia)). lra.
Qed.

Lemma pct_b_absent (traffic : list (string * nat)) :
  "B"%string ∉ traffic.*1 -> pct_b traffic = Some 0.
Proof. intros H. unfold pct_b. destruct (decide _); [contradiction|reflexivity]. Qed.

Lemma pct_b_total (traffic : list (string * nat)) :
  Forall (λ r, 1 <= r.2)%nat traffic ->
  exists p, pct_b traffic = Some p /\ 0 <= p <= 100.
Proof.
  intros Hpos. destruct (decide ("B"%string ∈ traffic.*1)) as [HB|HB].
  - destruct (pct_b_present traffic Hpos HB) as (b & _ & [H1 H2] & E).
    eexists. split; [exact E|].
    assert (Ht : 1 <= Py.float (total_traffic traffic)) by (apply float_pos; lia).
    pose proof (float_le _ _ H2) as Hle.
    pose proof (float_nonneg b) as Hb.
    remember (Py.float b) as B eqn:EB.
    remember (Py.float (total_traffic traffic)) as T eqn:ET.
    clear EB ET E.
    assert (0 <= B / T <= 1) as Hq.
    { split.
      - apply Qle_shift_div_l; [lra|]. lra.
      - apply Qle_shift_div_r; [lra|]. lra. }
    assert (Hr : 0 <= Py.rnd (B / T) <= 1).
    { apply rnd_between; [reflexivity|reflexivity|discriminate|exact Hq]. }
    generalize dependent (Py.rnd (B / T)). intros q Hr.
    unfold Py.mul. apply rnd_between; [reflexivity|reflexivity|discriminate|lra].
  - exists 0. split; [now apply pct_b_absent|]. split; discriminate.
Qed.

Lemma elem_of_aisle_traffic_keys (ows : list OrderSlotRow) a :
  a ∈ (aisle_traffic ows).*1 <-> exists r, r ∈ ows /\ os_aisle r = Some a.
Proof.
  unfold aisle_traffic. rewrite groupby_size_keys, list_elem_of_omap. reflexivity.
Qed.

(** The total traffic is the number of order rows that have an aisle. *)
Lemma total_traffic_count (ows : list OrderSlotRow) :
  total_traffic (aisle_traffic ows) = length (omap os_aisle ows).
Proof. unfold total_traffic, aisle_traffic. apply sum_groupby_size. Qed.

(** C10. The aisle-B percentage always has a value, between 0 and 100; it
    is 0.0, and the aisle-B penalty 0, when no order row has aisle B, in
    particular when there is no order; and when aisle B is present the
    total traffic that divides is at least 1. *)
Theorem pct_b_well_defined (orders : list OrderRow) (sku_master : list SkuRow) :
  let traffic := aisle_traffic (orders_with_slot orders sku_master) in
  (exists p, pct_b traffic = Some p /\ 0 <= p <= 100) /\
  ((forall r, r ∈ orders_with_slot orders sku_master -> os_aisle r <> Some "B"%string) ->
     pct_b traffic = Some 0 /\ aisle_b_penalty 0 == 0) /\
  (orders = [] -> pct_b traffic = Some 0) /\
  ("B"%string ∈ traffic.*1 ->
     exists b ratio, ("B"%string, b) ∈ traffic /\
       (1 <= b <= total_traffic traffic)%nat /\
       Py.div (Py.float b) (Py.float (total_traffic traffic)) = Some ratio /\
       pct_b traffic = Some (Py.mul ratio 100)).
Proof.
  intros traffic.
  assert (Hpos : Forall (λ r, 1 <= r.2)%nat traffic) by apply groupby_size_pos.
  split; [now apply pct_b_total|].
  split; [|split].
  - intros Hno. split; [|reflexivity].
    apply pct_b_absent. unfold traffic. rewrite elem_of_aisle_traffic_keys.
    intros (r & Hr & E). exact (Hno r Hr E).
  - intros ->. reflexivity.
  - intros HB. destruct (pct_b_present traffic Hpos HB) as (b & Hb & Hle & E).
    exists b, (Py.rnd (Py.float b / Py.float (total_traffic traffic))).
    repeat split; [exact Hb|lia|lia| |exact E].
    apply py_div_pos.
    pose proof (float_pos (total_traffic traffic) ltac:(lia)). lra.
Qed.

(** ** Left join *)

Lemma elem_of_merge_left {A B K} `{EqDecision K} (ka : A -> K) (kb : B -> K)
    (left : list A) (right : list B) a ob :
  (a, ob) ∈ Pd.merge_left ka kb left right <->
  a ∈ left /\
  ((ob = None /\ forall b, b ∈ right -> kb b <> ka a) \/
   (exists b, ob = Some b /\ b ∈ right /\ kb b = ka a)).
Proof.
  unfold Pd.merge_left. rewrite list_elem_of_bind. split.
  - intros (a' & Hin & Ha').
    destruct (filter (λ b, kb b = ka a') right) as [|b0 ms] eqn:E.
    + apply list_elem_of_singleton in Hin. inversion Hin; subst.
      split; [exact Ha'|]. left. split; [reflexivity|].
      intros b Hb Hk.
      assert (Hf : b ∈ filter (λ b, kb b = ka a') right)
        by now apply list_elem_of_filter.
      rewrite E in Hf. inversion Hf.
    + apply list_elem_of_fmap in Hin as (b & Eb & Hb). inversion Eb; subst.
      split; [exact Ha'|]. right. exists b. split; [reflexivity|].
      rewrite <- E in Hb. apply list_elem_of_filter in Hb. tauto.
  - intros [Ha Hcase]. exists a. split; [|exact Ha].
    destruct (filter (λ b, kb b = ka a) right) as [|b0 ms] eqn:E.
    + destruct Hcase as [[-> _]|(b & -> & Hb & Hk)]; [now left|].
      assert (Hf : b ∈ filter (λ b, kb b = ka a) right)
        by now apply list_elem_of_filter.
      rewrite E in Hf. inversion Hf.
    + destruct Hcase as [[-> Hno]|(b & -> & Hb & Hk)].
      * assert (Hf : b0 ∈ filter (λ b, kb b = ka a) right) by (rewrite E; now left).
        apply list_elem_of_filter in Hf as [Hk Hb]. destruct (Hno b0 Hb Hk).
      * apply list_elem_of_fmap. exists b. split; [reflexivity|].
        rewrite <- E. now apply list_elem_of_filter.
Qed.

(** The left rows come out in their order, each at least once. *)
Lemma merge_left_fst_sorted {A B K} `{EqDecision K} (R : relation A)
    (ka : A -> K) (kb : B -> K) (left : list A) (right : list B) :
  Reflexive R -> StronglySorted R left ->
  StronglySorted (λ x y, R x.1 y.1) (Pd.merge_left ka kb left right).
Proof.
  intros Hrefl Hs. unfold Pd.merge_left.
  induction Hs as [|a l Hs IH Hall]; [constructor|].
  rewrite bind_cons. fold (Pd.merge_left ka kb l right) in *.
  set (rows := match filter (λ b, kb b = ka a) right with
               | [] => [(a, None)] | _ => _ end).
  assert (Hrows : Forall (λ x, x.1 = a) rows).
  { unfold rows. destruct (filter _ right); [repeat constructor|].
    apply Forall_forall. intros x Hx.
    apply list_elem_of_fmap in Hx as (b' & -> & _). reflexivity. }
  clearbody rows. induction rows as [|x rows IHr]; [exact IH|].
  inversion Hrows as [|? ? Hx Hrest]; subst. simpl.
  constructor; [now apply IHr|].
  apply Forall_app. split.
  - eapply Forall_impl; [exact Hrest|]. simpl. intros y ->. apply Hrefl.
  - apply Forall_forall. intros [a' ob] Hin. simpl.
    apply elem_of_merge_left in Hin as [Hin _].
    rewrite Forall_forall in Hall. exact (Hall a' Hin).
Qed.

(** With a key that is unique on the right, a left join keeps the number
    of rows. *)
Lemma merge_left_length_unique {A B K} `{EqDecision K} (ka : A -> K) (kb : B -> K)
    (left : list A) (right : list B) :
  NoDup (kb <$> right) ->
  length (Pd.merge_left ka kb left right) = length left /\
  (Pd.merge_left ka kb left right).*1 = left.
Proof.
  intros Hnd.
  assert (Hone : forall k, (length (filter (λ b, kb b = k) right) <= 1)%nat).
  { intros k. induction right as [|b r IH]; [simpl; lia|].
    rewrite fmap_cons in Hnd. apply NoDup_cons in Hnd as [Hb Hnd].
    rewrite filter_cons. destruct (decide (kb b = k)) as [E|E]; [|now apply IH].
    assert (Hnil : filter (λ b, kb b = k) r = []).
    { destruct (filter (λ b, kb b = k) r) as [|b' r'] eqn:Ef; [reflexivity|].
      assert (Hb' : b' ∈ filter (λ b, kb b = k) r) by (rewrite Ef; now left).
      apply list_elem_of_filter in Hb' as [Hk Hb'].
      destruct Hb. rewrite E, <- Hk. now apply list_elem_of_fmap_2. }
    rewrite Hnil. simpl. lia. }
  unfold Pd.merge_left. induction left as [|a l [IH1 IH2]]; [split; reflexivity|].
  rewrite bind_cons, length_app, fmap_app.
  fold (Pd.merge_left ka kb l right) in *. rewrite IH1, IH2.
  specialize (Hone (ka a)).
  destruct (filter (λ b, kb b = ka a) right) as [|b [|b' ms]];
    simpl in *; [split; reflexivity|split; reflexivity|lia].
Qed.

(** ** The report *)

Lemma aisle_b_density_assigned (pm : PickerTable) (sku_master : list SkuRow) :
  is_Some (aisle_b_density (assign_hour pm) sku_master).
Proof. unfold aisle_b_density, assign_hour. simpl. eauto. Qed.

(** No step of [run] stops, whatever the tables hold; the only table it
    leaves changed is the picker table, to which line 149 assigns the
    column ["hour"]. *)
Lemma run_succeeds `{SortValues} `{ShortcutDetector} (env : Env) :
  exists report,
    run env = Some (report, set_picker_movement (assign_hour (picker_movement env)) env) /\
    r_violation_count report =
      length (temp_violations (sku_master env) (warehouse env)) /\
    r_weight_at_risk report =
      weight_at_risk (temp_violations (sku_master env) (warehouse env)) /\
    pct_b (aisle_traffic (orders_with_slot (orders env) (sku_master env)))
      = Some (r_pct_b report) /\
    r_chaos_score report =
      chaos_score (r_violation_count report) (length (r_shortcut_pickers report))
                  (r_pct_b report) /\
    r_phase1_skus report = phase1_skus (orders env) (sku_master env) /\
    r_ghost report = ghost_tab (sku_master env) (warehouse env) /\
    r_decimal_drift report = decimal_drift_tab (sku_master env) /\
    r_slotting_export report = final_slotting env.
Proof.
  destruct (pct_b_total (aisle_traffic (orders_with_slot (orders env) (sku_master env))))
    as (p & Ep & _); [apply groupby_size_pos|].
  destruct (aisle_b_density_assigned (picker_movement env) (sku_master env)) as [d Ed].
  eexists. split.
  - unfold run, get, put, lift. unfold mbind, M_bind, mret, M_ret.
    rewrite Ep.
    cbn -[aisle_b_density assign_hour phase1_skus chaos_score temp_violations
          decimal_drift_tab ghost_tab weight_at_risk Pd.head].
    rewrite Ed. reflexivity.
  - cbn [r_violation_count r_weight_at_risk r_pct_b r_chaos_score
         r_shortcut_pickers r_phase1_skus r_ghost r_decimal_drift r_slotting_export].
    repeat split; try reflexivity. exact Ep.
Qed.

(** The chaos score of every report lies between 40 and 100. *)
Lemma run_chaos_score_range `{SortValues} `{ShortcutDetector} (env : Env) :
  exists report env',
    run env = Some (report, env') /\ 40 <= r_chaos_score report <= 100.
Proof.
  destruct (run_succeeds env) as (r & E & _ & _ & Ep & Ec & _).
  exists r, (set_picker_movement (assign_hour (picker_movement env)) env).
  split; [exact E|]. rewrite Ec.
  destruct (pct_b_total (aisle_traffic (orders_with_slot (orders env) (sku_master env))))
    as (p & Ep' & Hp); [apply groupby_size_pos|].
  rewrite Ep in Ep'. inversion Ep'; subst. apply chaos_score_bounds, Hp.
Qed.

(** ** Temperature violations *)


(** ** Phase-1 roadmap *)

Lemma insert_desc_perm x l : insert_desc x l ≡ₚ x :: l.
Proof.
  induction l as [|y l IH]; [reflexivity|]. simpl.
  destruct (y.2 <=? x.2)%nat; [reflexivity|].
  rewrite IH. apply Permutation_swap.
Qed.

Lemma insert_desc_sorted x l :
  StronglySorted (λ a b, b.2 <= a.2)%nat l ->
  StronglySorted (λ a b, b.2 <= a.2)%nat (insert_desc x l).
Proof.
  induction 1 as [|y l Hs IH Hall]; [repeat constructor|]. simpl.
  destruct (y.2 <=? x.2)%nat eqn:E.
  - apply Nat.leb_le in E. constructor; [now constructor|].
    constructor; [exact E|].
    eapply Forall_impl; [exact Hall|]. simpl. intros z Hz. lia.
  - apply Nat.leb_gt in E. constructor; [exact IH|].
    rewrite insert_desc_perm. constructor; [lia|exact Hall].
Qed.

Lemma insert_desc_filter x l c :
  filter (λ r, r.2 = c) (insert_desc x l) = filter (λ r, r.2 = c) (x :: l).
Proof.
  induction l as [|y l IH]; [reflexivity|]. simpl.
  destruct (y.2 <=? x.2)%nat eqn:E; [reflexivity|].
  apply Nat.leb_gt in E.
  rewrite (filter_cons _ y), IH, !(filter_cons _ x), (filter_cons _ y).
  destruct (decide (x.2 = c)), (decide (y.2 = c)); try reflexivity. lia.
Qed.

#[export] Instance stable_sort_desc_contract : SortContract stable_sort_desc.
Proof.
  split; intros l; unfold sort_values_desc, stable_sort_desc.
  - induction l as [|x l IH]; [reflexivity|]. simpl.
    now rewrite insert_desc_perm, IH.
  - induction l as [|x l IH]; [constructor|]. simpl. now apply insert_desc_sorted.
Qed.

Lemma stable_sort_desc_stable : SortStable stable_sort_desc.
Proof.
  intros l c. unfold sort_values_desc, stable_sort_desc.
  induction l as [|x l IH]; [reflexivity|]. simpl.
  rewrite insert_desc_filter, !filter_cons, IH. reflexivity.
Qed.

(** The contract of the sort does not make it stable. *)
Lemma sort_contract_not_stable :
  SortContract reversing_sort_desc /\ ~ SortStable reversing_sort_desc.
Proof.
  split.
  - split; intros l; unfold sort_values_desc, reversing_sort_desc.
    + rewrite (sort_values_perm (S := stable_sort_desc)). apply reverse_Permutation.
    + apply (sort_values_sorted (S := stable_sort_desc)).
  - intros H. specialize (H [("S1"%string, 1%nat); ("S2"%string, 1%nat)] 1%nat).
    vm_compute in H. discriminate.
Qed.

Lemma StronglySorted_take {A} (R : relation A) n (l : list A) :
  StronglySorted R l -> StronglySorted R (take n l).
Proof.
  intros H. rewrite <- (take_drop n l) in H.
  now apply StronglySorted_app_1_l in H.
Qed.

(** The roadmap is sorted whatever the SKU master holds. *)
Lemma phase1_skus_sorted `{S : SortValues} `{!SortContract S}
    (orders : list OrderRow) (sku_master : list SkuRow) :
  StronglySorted (λ a b, b.1.2 <= a.1.2)%nat (phase1_skus orders sku_master).
Proof.
  unfold phase1_skus.
  apply (merge_left_fst_sorted (λ a b : string * nat, b.2 <= a.2)%nat).
  - intros x. reflexivity.
  - apply StronglySorted_take, sort_values_sorted.
Qed.




(** The same under every sort kind: a single count cannot be reordered. *)
Lemma crowded_roadmap_any_sort `{S : SortValues} :
  SortContract S ->
  length (phase1_skus crowded_orders crowded_sku_master) = 51%nat.
Proof.
  intros HS. unfold phase1_skus.
  assert (E : sort_values_desc (sku_velocity crowded_orders) = [("S1"%string, 1%nat)]).
  { pose proof (sort_values_perm (sku_velocity crowded_orders)) as P.
    change (sku_velocity crowded_orders) with [("S1"%string, 1%nat)] in P.
    now apply Permutation_singleton_r in P. }
  rewrite E. reflexivity.
Qed.

(** ** What the script writes *)

(** The report does not depend on an ["hour"] column the picker file might
    already have: line 149 overwrites it before it is read. *)
Lemma run_report_ignores_hour `{SortValues} `{ShortcutDetector} (env : Env)
    (hours : option (list Z)) :
  fst <$> run (set_picker_movement
                 (mk_picker_table (pk_rows (picker_movement env)) hours) env)
  = fst <$> run env.
Proof.
  destruct (run_succeeds env) as (r & E & _).
  destruct (pct_b_total (aisle_traffic (orders_with_slot (orders env) (sku_master env))))
    as (p & Ep & _); [apply groupby_size_pos|].
  unfold run, get, put, lift. unfold mbind, M_bind, mret, M_ret.
  cbn [set_picker_movement orders sku_master picker_movement warehouse
       final_slotting pk_rows].
  rewrite Ep.
  cbn -[aisle_b_density assign_hour phase1_skus chaos_score temp_violations
        decimal_drift_tab ghost_tab weight_at_risk Pd.head].
  reflexivity.
Qed.



(** ** The definitions at work *)

(** The table of counts lists the SKUs in the order of their ids: this is
    the order that ties are measured against. *)
Lemma sku_velocity_keys_sorted (orders : list OrderRow) :
  Sorted (λ a b : string, String.leb a b) (sku_velocity orders).*1.
Proof.
  unfold sku_velocity, Pd.groupby_size, Pd.groupby.
  rewrite <- !list_fmap_compose, list_fmap_id.
  apply Sorted_merge_sort.
  intros a b. destruct (String.leb_total a b) as [E|E]; rewrite E; [left|right]; exact I.
Qed.

Example sku_velocity_example :
  sku_velocity roadmap_orders = [("S1", 2%nat); ("S2", 2%nat); ("S3", 1%nat)]%string.
Proof. reflexivity. Qed.

(** Of the five example orders two are for a SKU in an A slot, two for a
    SKU in a B slot, and one for a SKU the master does not know. *)
Example aisle_traffic_example :
  aisle_traffic (orders_with_slot roadmap_orders roadmap_sku_master)
    = [("A", 2%nat); ("B", 2%nat)]%string /\
  pct_b (aisle_traffic (orders_with_slot roadmap_orders roadmap_sku_master))
    = Some 50.
Proof. split; reflexivity. Qed.

(** Floats at work: the literal 0.05 is a little above 1/20, yet a hundred
    times it is 5.0; with 7 violations the difference 100 - 0.35 is a float
    a little above 99.65 and rounds up; 0.25 is a float and an exact tie. *)
Example float_examples :
  1 # 20 < Py.lit 0.05 /\
  Py.mul (Py.float 100) (Py.lit 0.05) == 5 /\
  99.65 < Py.sub 100 (temp_penalty 7) /\
  chaos_score 7 0 0 = Py.lit 99.7 /\
  chaos_score 1 0 0 == 100 /\
  Py.round1 (Py.lit 0.25) = Py.lit 0.2 /\
  Py.round1 (Py.lit 0.35) = Py.lit 0.3.
Proof. repeat split; reflexivity. Qed.

Example temp_violations_example :
  temp_violations ghost_example_sku ghost_example_warehouse
    = [ (mk_sku "S2" "snacks" 2 "C9" "ambient", None) ] /\
  weight_at_risk (temp_violations ghost_example_sku ghost_example_warehouse) == 2.
Proof. split; reflexivity. Qed.

Example run_example :
  (λ r, (r_violation_count r.1, r_aisle_b_density r.1, Qred (r_chaos_score r.1)))
    <$> run (H := stable_sort_desc) (H0 := no_shortcut_pickers) loaded_example
  = Some (0%nat, [(19%Z, 1%nat)], 80).
Proof. vm_compute. reflexivity. Qed.

(* ================================================================== *)
(** * Further properties of the script *)
(* ================================================================== *)

(** ** Orders with their slot (lines 36-41) *)

Lemma merge_left_length_ge {A B K} `{EqDecision K} (ka : A -> K) (kb : B -> K)
    (left : list A) (right : list B) :
  (length left <= length (Pd.merge_left ka kb left right))%nat.
Proof.
  unfold Pd.merge_left. induction left as [|a l IH]; [reflexivity|].
  rewrite bind_cons, length_app.
  match goal with |- context [length (l ≫= ?f)] => set (rest := l ≫= f) in * end.
  destruct (filter (λ b, kb b = ka a) right); rewrite ?length_fmap; simpl; lia.
Qed.

Lemma elem_of_orders_with_slot (orders : list OrderRow) (sku_master : list SkuRow) r :
  r ∈ orders_with_slot orders sku_master <->
  os_order r ∈ orders /\
  os_aisle r = Pd.extract_upper (os_current_slot r) /\
  ((os_current_slot r = None /\
    forall s, s ∈ sku_master -> sku_id s <> o_sku_id (os_order r)) \/
   (exists s, s ∈ sku_master /\ sku_id s = o_sku_id (os_order r) /\
      os_current_slot r = Some (current_slot s))).
Proof.
  unfold orders_with_slot. rewrite list_elem_of_fmap. split.
  - intros ([o ob] & -> & Hin). simpl.
    apply elem_of_merge_left in Hin as [Ho Hcase].
    split; [exact Ho|]. split; [reflexivity|].
    destruct Hcase as [[-> Hno]|(b & -> & Hb & Hk)].
    + left. split; [reflexivity|]. intros s Hs E.
      apply (Hno (sku_id s, current_slot s)); [|exact E].
      apply list_elem_of_fmap. eauto.
    + right. apply list_elem_of_fmap in Hb as (s & -> & Hs). eauto.
  - intros (Ho & Ha & Hcase). destruct r as [o slot aisle]. simpl in *. subst aisle.
    destruct Hcase as [[-> Hno]|(s & Hs & Hk & ->)].
    + exists (o, None). split; [reflexivity|].
      apply elem_of_merge_left. split; [exact Ho|]. left. split; [reflexivity|].
      intros b Hb E. apply list_elem_of_fmap in Hb as (s & -> & Hs).
      exact (Hno s Hs E).
    + exists (o, Some (sku_id s, current_slot s)). split; [reflexivity|].
      apply elem_of_merge_left. split; [exact Ho|]. right.
      eexists. split; [reflexivity|]. split; [|exact Hk].
      apply list_elem_of_fmap. eauto.
Qed.

(** X1. The join of the orders with the SKU master loses no order and
    invents none: every order has a row, every row is an order, and its
    slot is the slot of a master row with the order's SKU id, or is missing
    exactly when the master has no such SKU; so the joined table is at
    least as long as the order table. *)
Theorem orders_with_slot_rows (orders : list OrderRow) (sku_master : list SkuRow) :
  (forall o, o ∈ orders ->
     exists r, r ∈ orders_with_slot orders sku_master /\ os_order r = o) /\
  (forall r, r ∈ orders_with_slot orders sku_master ->
     os_order r ∈ orders /\
     ((os_current_slot r = None /\ os_aisle r = None /\
       forall s, s ∈ sku_master -> sku_id s <> o_sku_id (os_order r)) \/
      (exists s, s ∈ sku_master /\ sku_id s = o_sku_id (os_order r) /\
         os_current_slot r = Some (current_slot s)))) /\
  (length orders <= length (orders_with_slot orders sku_master))%nat.
Proof.
  split; [|split].
  - intros o Ho.
    destruct (decide (Exists (λ s, sku_id s = o_sku_id o) sku_master)) as [He|He].
    + apply Exists_exists in He as (s & Hs & Hk).
      exists (mk_order_slot o (Some (current_slot s))
                (Pd.extract_upper (Some (current_slot s)))).
      split; [|reflexivity]. apply elem_of_orders_with_slot. simpl.
      split; [exact Ho|]. split; [reflexivity|]. right. eauto.
    + exists (mk_order_slot o None None).
      split; [|reflexivity]. apply elem_of_orders_with_slot. simpl.
      split; [exact Ho|]. split; [reflexivity|]. left. split; [reflexivity|].
      intros s Hs E. apply He, Exists_exists. eauto.
  - intros r Hr. apply elem_of_orders_with_slot in Hr as (Ho & Ha & Hcase).
    split; [exact Ho|].
    destruct Hcase as [[E Hno]|Hs]; [left|right; exact Hs].
    rewrite E in Ha. auto.
  - unfold orders_with_slot. rewrite length_fmap. apply merge_left_length_ge.
Qed.

(** X2. When no SKU id occurs twice in the SKU master, the joined table
    has exactly one row per order, in the order of the order table. *)
Theorem orders_with_slot_unique (orders : list OrderRow) (sku_master : list SkuRow) :
  NoDup (sku_id <$> sku_master) ->
  os_order <$> orders_with_slot orders sku_master = orders /\
  length (orders_with_slot orders sku_master) = length orders.
Proof.
  intros Hnd. unfold orders_with_slot.
  assert (Hnd' : NoDup (fst <$> ((λ s, (sku_id s, current_slot s)) <$> sku_master))).
  { rewrite <- list_fmap_compose. exact Hnd. }
  destruct (merge_left_length_unique (K := string) o_sku_id fst orders
              ((λ s, (sku_id s, current_slot s)) <$> sku_master) Hnd') as [Hlen Hfst].
  split.
  - rewrite <- list_fmap_compose. rewrite <- Hfst at 2. reflexivity.
  - rewrite length_fmap. exact Hlen.
Qed.

Lemma orders_with_slot_unique_witness :
  NoDup (sku_id <$> roadmap_sku_master) /\
  os_order <$> orders_with_slot roadmap_orders roadmap_sku_master = roadmap_orders /\
  length (orders_with_slot roadmap_orders roadmap_sku_master) = length roadmap_orders.
Proof.
  assert (Hnd : NoDup (sku_id <$> roadmap_sku_master)).
  { apply (bool_decide_unpack _). vm_compute. exact I. }
  exact (conj Hnd (orders_with_slot_unique roadmap_orders roadmap_sku_master Hnd)).
Defined.

(** ** Aisle traffic (lines 43-55) *)

Lemma length_filter_omap {A K} `{EqDecision K} (f : A -> option K) (a : K) (l : list A) :
  length (filter (λ k, k = a) (omap f l)) = length (filter (λ r, f r = Some a) l).
Proof.
  induction l as [|x l IH]; [reflexivity|].
  rewrite (filter_cons _ x). cbn [omap list_omap].
  destruct (f x) as [k0|] eqn:E.
  - rewrite filter_cons.
    destruct (decide (k0 = a)) as [Ek|Hne];
      destruct (decide (Some k0 = Some a)) as [E'|E']; simpl; congruence.
  - destruct (decide (None = Some a)); [discriminate|exact IH].
Qed.

Lemma length_omap_is_Some {A K} (f : A -> option K) (l : list A) :
  length (omap f l) = length (filter (λ r, is_Some (f r)) l).
Proof.
  induction l as [|x l IH]; [reflexivity|].
  rewrite filter_cons. cbn [omap list_omap].
  destruct (f x) as [k0|] eqn:E.
  - destruct (decide (is_Some (Some k0))) as [_|Hn]; [simpl; now rewrite IH|].
    destruct Hn. eauto.
  - destruct (decide (is_Some None)) as [[? ?]|_]; [discriminate|exact IH].
Qed.

Lemma elem_of_aisle_traffic (ows : list OrderSlotRow) a n :
  (a, n) ∈ aisle_traffic ows <->
  (1 <= n)%nat /\ n = length (filter (λ r, os_aisle r = Some a) ows).
Proof.
  unfold aisle_traffic. rewrite elem_of_groupby_size, length_filter_omap.
  rewrite list_elem_of_omap. split.
  - intros [(r & Hr & E) ->]. split; [|reflexivity].
    assert (Hin : r ∈ filter (λ r, os_aisle r = Some a) ows)
      by now apply list_elem_of_filter.
    destruct (filter _ ows); [inversion Hin|simpl; lia].
  - intros [Hn ->]. split; [|reflexivity].
    destruct (filter (λ r, os_aisle r = Some a) ows) as [|r rest] eqn:E;
      [simpl in Hn; lia|].
    assert (Hin : r ∈ filter (λ r, os_aisle r = Some a) ows) by (rewrite E; now left).
    apply list_elem_of_filter in Hin as [Ha Hin]. eauto.
Qed.

(** X3. The aisle traffic table lists every aisle once, with the number of
    order rows in that aisle, which is at least 1; the total traffic is the
    number of order rows that have an aisle, so rows without one (unknown
    SKU, slot not starting with a capital letter) are not counted. *)
Theorem aisle_traffic_counts (ows : list OrderSlotRow) :
  NoDup (aisle_traffic ows).*1 /\
  (forall a n, (a, n) ∈ aisle_traffic ows <->
     (1 <= n)%nat /\ n = length (filter (λ r, os_aisle r = Some a) ows)) /\
  total_traffic (aisle_traffic ows)
    = length (filter (λ r, is_Some (os_aisle r)) ows) /\
  (total_traffic (aisle_traffic ows) <= length ows)%nat.
Proof.
  assert (Ht : total_traffic (aisle_traffic ows)
               = length (filter (λ r, is_Some (os_aisle r)) ows)).
  { rewrite total_traffic_count. apply length_omap_is_Some. }
  split; [|split; [|split]].
  - unfold aisle_traffic, Pd.groupby_size.
    rewrite <- list_fmap_compose.
    apply groupby_keys_NoDup.
  - apply elem_of_aisle_traffic.
  - exact Ht.
  - rewrite Ht. apply length_filter.
Qed.

Lemma pct_b_of_rows (ows : list OrderSlotRow) :
  let in_b := length (filter (λ r, os_aisle r = Some "B"%string) ows) in
  let with_aisle := length (filter (λ r, is_Some (os_aisle r)) ows) in
  pct_b (aisle_traffic ows) =
    if decide (in_b = 0%nat) then Some 0
    else Some (Py.mul (Py.rnd (Py.float in_b / Py.float with_aisle)) 100).
Proof.
  intros in_b with_aisle.
  assert (Ht : total_traffic (aisle_traffic ows) = with_aisle).
  { rewrite total_traffic_count. apply length_omap_is_Some. }
  destruct (decide (in_b = 0%nat)) as [E0|E0].
  - apply pct_b_absent. intros HB.
    apply list_elem_of_fmap in HB as ([k n] & Hk & Hin). simpl in Hk. subst k.
    apply elem_of_aisle_traffic in Hin as [Hn Hc]. fold in_b in Hc. lia.
  - assert (HB : "B"%string ∈ (aisle_traffic ows).*1).
    { apply list_elem_of_fmap. exists ("B"%string, in_b). split; [reflexivity|].
      apply elem_of_aisle_traffic. fold in_b. split; [lia|reflexivity]. }
    destruct (pct_b_present (aisle_traffic ows) (groupby_size_pos _ _) HB)
      as (b & Hb & _ & E).
    apply elem_of_aisle_traffic in Hb as [_ Hb]. fold in_b in Hb. subst b.
    rewrite E, Ht. reflexivity.
Qed.

(** X4. The aisle-B percentage is computed from two numbers of order
    rows: it is 0.0 when no row is in aisle B, and otherwise the float
    quotient of the rows in aisle B by the rows that have an aisle, times
    100; it is exactly 100.0 when every row that has an aisle is in aisle B. *)
Theorem pct_b_value (ows : list OrderSlotRow) :
  let in_b := length (filter (λ r, os_aisle r = Some "B"%string) ows) in
  let with_aisle := length (filter (λ r, is_Some (os_aisle r)) ows) in
  pct_b (aisle_traffic ows) =
    (if decide (in_b = 0%nat) then Some 0
     else Some (Py.mul (Py.rnd (Py.float in_b / Py.float with_aisle)) 100)) /\
  (in_b <> 0%nat -> in_b = with_aisle -> pct_b (aisle_traffic ows) = Some 100).
Proof.
  intros in_b with_aisle. split; [apply pct_b_of_rows|].
  intros Hb E. pose proof (pct_b_of_rows ows) as H. cbv zeta in H.
  fold in_b with_aisle in H. rewrite H.
  destruct (decide (in_b = 0%nat)) as [|_]; [contradiction|].
  rewrite <- E. f_equal.
  assert (Hq : Py.float in_b / Py.float in_b == 1).
  { pose proof (float_pos in_b ltac:(lia)). field. intros Z0. lra. }
  rewrite (rnd_comp _ _ Hq). reflexivity.
Qed.

(** ** Peak-hour heat map *)

Lemma elem_of_aisle_counts (ows : list OrderSlotRow) a n :
  (a, n) ∈ aisle_counts ows <->
  (1 <= n)%nat /\
  n = length (filter (λ r, os_aisle r = Some a) (filter (λ r, os_hour r = 19%Z) ows)).
Proof. unfold aisle_counts, peak_orders. apply elem_of_aisle_traffic. Qed.

Lemma length_filter_filter_le {A} (P Q : A -> Prop)
    `{!forall x, Decision (P x)} `{!forall x, Decision (Q x)} (l : list A) :
  (length (filter P (filter Q l)) <= length (filter P l))%nat.
Proof.
  induction l as [|x l IH]; [reflexivity|].
  rewrite (filter_cons Q), (filter_cons P x l).
  destruct (decide (Q x)); [rewrite filter_cons|]; destruct (decide (P x)); simpl; lia.
Qed.

(** X5. The heat map counts, per aisle, the order rows of hour 19 in that
    aisle; an aisle is on the heat map only with at least one such row, and
    every aisle of the heat map is an aisle of the global traffic table with
    at least as many visits there. *)
Theorem aisle_counts_within_traffic (ows : list OrderSlotRow) :
  (forall a n, (a, n) ∈ aisle_counts ows <->
     (1 <= n)%nat /\
     n = length (filter (λ r, os_aisle r = Some a)
                   (filter (λ r, os_hour r = 19%Z) ows))) /\
  (forall a n, (a, n) ∈ aisle_counts ows ->
     exists m, (a, m) ∈ aisle_traffic ows /\ (n <= m)%nat) /\
  NoDup (aisle_counts ows).*1 /\
  (sum_list (aisle_counts ows).*2 <= total_traffic (aisle_traffic ows))%nat.
Proof.
  split; [apply elem_of_aisle_counts|]. split; [|split].
  - intros a n Hin. apply elem_of_aisle_counts in Hin as [Hn ->].
    exists (length (filter (λ r, os_aisle r = Some a) ows)).
    pose proof (length_filter_filter_le (λ r, os_aisle r = Some a)
                  (λ r, os_hour r = 19%Z) ows) as Hle.
    split; [|exact Hle]. apply elem_of_aisle_traffic. split; [lia|reflexivity].
  - unfold aisle_counts, Pd.groupby_size.
    rewrite <- list_fmap_compose. apply groupby_keys_NoDup.
  - unfold aisle_counts, peak_orders. fold (aisle_traffic (filter (λ r, os_hour r = 19%Z) ows)).
    fold (total_traffic (aisle_traffic (filter (λ r, os_hour r = 19%Z) ows))).
    rewrite !total_traffic_count, !length_omap_is_Some.
    apply length_filter_filter_le.
Qed.

(** ** Decimal drift (lines 72-86) *)

Lemma py_max_le_l a b : a <= Py.max a b.
Proof. rewrite py_max_Qmax. apply Q.le_max_l. Qed.

Lemma py_min_nan_le u p : Py.min_nan u p <= u.
Proof. destruct p; simpl; [apply py_min_le_l|apply Qle_refl]. Qed.

Lemma py_max_nan_ge l p : l <= Py.max_nan l p.
Proof. destruct p; simpl; [apply py_max_le_l|apply Qle_refl]. Qed.

(** X6. The domain limits always apply: a SKU of the master that weighs
    more than 25 or less than 0.01 is flagged whatever the other weights
    are, and the tab then shows an error with that SKU in its table and
    the number of flagged SKUs, which is the number of rows shown. *)
Theorem decimal_drift_domain_limits (sku_master : list SkuRow) (s : SkuRow) :
  s ∈ sku_master ->
  25 < weight_kg s \/ weight_kg s < Py.lit 0.01 ->
  s ∈ decimal_drift sku_master /\
  exists n shown,
    decimal_drift_tab sku_master = AlertError (n, shown) /\
    (1 <= n)%nat /\ n = length shown /\
    (sku_id s, category s, weight_kg s) ∈ shown.
Proof.
  intros Hin Hw.
  assert (Hs : s ∈ decimal_drift sku_master).
  { unfold decimal_drift. apply elem_of_decimal_drift_with. split; [exact Hin|].
    pose proof (py_min_nan_le upper_domain_limit
                  (Pd.quantile 0.995 (weight_kg <$> sku_master))) as Hu.
    pose proof (py_max_nan_ge lower_domain_limit
                  (Pd.quantile 0.005 (weight_kg <$> sku_master))) as Hl.
    unfold upper_domain_limit in Hu at 2. unfold lower_domain_limit in Hl at 1.
    destruct Hw as [Hw|Hw]; [left|right]; lra. }
  split; [exact Hs|]. unfold decimal_drift_tab.
  destruct (decimal_drift sku_master) as [|x flagged] eqn:E; [inversion Hs|].
  exists (length (x :: flagged)),
         ((λ s, (sku_id s, category s, weight_kg s)) <$> (x :: flagged)).
  split; [reflexivity|]. split; [simpl; lia|].
  split; [now rewrite length_fmap|].
  apply list_elem_of_fmap. eauto.
Qed.

Lemma decimal_drift_domain_limits_witness :
  mk_sku "W5" "staples" 30 "C1" "ambient" ∈ drift_example /\
  (25 < 30 \/ 30 < Py.lit 0.01) /\
  mk_sku "W5" "staples" 30 "C1" "ambient" ∈ decimal_drift drift_example.
Proof.
  assert (Hin : mk_sku "W5" "staples" 30 "C1" "ambient" ∈ drift_example).
  { unfold drift_example. do 4 right. left. }
  assert (Hw : 25 < weight_kg (mk_sku "W5" "staples" 30 "C1" "ambient") \/
               weight_kg (mk_sku "W5" "staples" 30 "C1" "ambient") < Py.lit 0.01).
  { left. reflexivity. }
  exact (conj Hin (conj Hw (proj1 (decimal_drift_domain_limits drift_example _ Hin Hw)))).
Defined.

Lemma nth_default_elem_of {A} (l : list A) (i : nat) (d : A) : d ∈ l -> nth i l d ∈ l.
Proof.
  intros Hd. destruct (decide (i < length l)%nat) as [Hi|Hi].
  - now apply nth_elem_of.
  - rewrite nth_overflow by lia. exact Hd.
Qed.

(** The quantile of a column whose values are all equal is that value. *)
Lemma quantile_constant (q w : Q) (xs : list Q) :
  Forall (λ x, x == w) xs ->
  forall p, Pd.quantile q xs = Some p -> p == w.
Proof.
  intros Hall p. unfold Pd.quantile.
  pose proof (merge_sort_Permutation (λ a b : Q, Qle_bool a b) xs) as P.
  assert (Hs : Forall (λ x, x == w) (merge_sort (λ a b : Q, Qle_bool a b) xs)).
  { now rewrite P. }
  destruct (merge_sort _ xs) as [|x0 sorted]; [discriminate|].
  intros [= <-]. rewrite Forall_forall in Hs.
  assert (H0 : x0 ∈ x0 :: sorted) by now left.
  pose proof (Hs _ (nth_default_elem_of (x0 :: sorted)
    (Z.to_nat (Qfloor (q * inject_Z (Z.of_nat (length (x0 :: sorted) - 1))))) x0 H0)) as Ha.
  pose proof (Hs _ (nth_default_elem_of (x0 :: sorted)
    (Nat.min (Z.to_nat (Qfloor (q * inject_Z (Z.of_nat (length (x0 :: sorted) - 1)))) + 1)
             (length (x0 :: sorted) - 1)) x0 H0)) as Hb.
  rewrite Ha, Hb. ring.
Qed.

(** X7. In a SKU master whose weights are all equal, a single-SKU master
    among them, the percentiles are that weight and flag nothing; a SKU is
    then flagged exactly when the common weight is above 25 or below 0.01. *)
Theorem decimal_drift_equal_weights (sku_master : list SkuRow) (w : Q) (s : SkuRow) :
  (forall x, x ∈ sku_master -> weight_kg x == w) ->
  (s ∈ decimal_drift sku_master <->
   s ∈ sku_master /\ (25 < w \/ w < Py.lit 0.01)).
Proof.
  intros Hall. unfold decimal_drift. rewrite elem_of_decimal_drift_with.
  assert (Hf : Forall (λ x, x == w) (weight_kg <$> sku_master)).
  { apply Forall_forall. intros x Hx.
    apply list_elem_of_fmap in Hx as (y & -> & Hy). now apply Hall. }
  split; intros [Hin H]; (split; [exact Hin|]); pose proof (Hall s Hin) as Ew.
  - destruct (quantile_nonempty 0.995 (weight_kg <$> sku_master)) as [p99 E99].
    { destruct sku_master; [inversion Hin|discriminate]. }
    destruct (quantile_nonempty 0.005 (weight_kg <$> sku_master)) as [p001 E001].
    { destruct sku_master; [inversion Hin|discriminate]. }
    pose proof (quantile_constant _ _ _ Hf _ E99) as H99.
    pose proof (quantile_constant _ _ _ Hf _ E001) as H001.
    rewrite E99, E001 in H. simpl in H.
    rewrite py_min_Qmin, py_max_Qmax, Ew, H99, H001 in H.
    unfold upper_domain_limit, lower_domain_limit in H.
    destruct H as [H|H]; [left|right].
    + destruct (Q.min_spec 25 w) as [[_ E]|[_ E]]; rewrite E in H; lra.
    + destruct (Q.max_spec (Py.lit 0.01) w) as [[_ E]|[_ E]]; rewrite E in H; lra.
  - pose proof (py_min_nan_le upper_domain_limit
                  (Pd.quantile 0.995 (weight_kg <$> sku_master))) as Hu.
    pose proof (py_max_nan_ge lower_domain_limit
                  (Pd.quantile 0.005 (weight_kg <$> sku_master))) as Hl.
    unfold upper_domain_limit in Hu at 2. unfold lower_domain_limit in Hl at 1.
    rewrite Ew. destruct H as [H|H]; [left|right]; lra.
Qed.

Lemma decimal_drift_equal_weights_witness :
  (forall x, x ∈ [mk_sku "W9" "staples" 40 "C1" "ambient"] -> weight_kg x == 40) /\
  (mk_sku "W9" "staples" 40 "C1" "ambient"
     ∈ decimal_drift [mk_sku "W9" "staples" 40 "C1" "ambient"] <->
   mk_sku "W9" "staples" 40 "C1" "ambient" ∈ [mk_sku "W9" "staples" 40 "C1" "ambient"]
   /\ (25 < 40 \/ 40 < Py.lit 0.01)).
Proof.
  assert (H : forall x, x ∈ [mk_sku "W9" "staples" 40 "C1" "ambient"] -> weight_kg x == 40).
  { intros x Hx. apply list_elem_of_singleton in Hx. subst x. reflexivity. }
  exact (conj H (decimal_drift_equal_weights _ 40 _ H)).
Defined.

(** ** Ghost inventory and spoilage risk (lines 104-110, 138-144) *)

Lemma temp_violations_cons (s : SkuRow) (l : list SkuRow) (warehouse : list SlotRow) :
  temp_violations (s :: l) warehouse =
  filter (λ r, Some (temp_req r.1) ≠ temp_zone <$> r.2)
         (match filter (λ b, slot_id b = current_slot s) warehouse with
          | [] => [(s, None)]
          | ms => (λ b, (s, Some b)) <$> ms
          end)
  ++ temp_violations l warehouse.
Proof.
  unfold temp_violations, Pd.merge_left. rewrite bind_cons, filter_app. reflexivity.
Qed.

Lemma ghost_rows_violate (G : gset string) (l : list SkuRow) (warehouse : list SlotRow) :
  (forall x, x ∈ G -> forall w, w ∈ warehouse -> slot_id w <> x) ->
  (length (filter (λ s, current_slot s ∈ G) l)
     <= length (temp_violations l warehouse))%nat.
Proof.
  intros HG. induction l as [|s l IH]; [reflexivity|].
  rewrite temp_violations_cons, length_app, filter_cons.
  destruct (decide (current_slot s ∈ G)) as [Hs|Hs]; [|lia].
  assert (E : filter (λ b, slot_id b = current_slot s) warehouse = []).
  { destruct (filter (λ b, slot_id b = current_slot s) warehouse) as [|b ms] eqn:E;
      [reflexivity|].
    assert (Hb : b ∈ filter (λ b, slot_id b = current_slot s) warehouse)
      by (rewrite E; now left).
    apply list_elem_of_filter in Hb as [Hk Hb]. destruct (HG _ Hs b Hb Hk). }
  rewrite E. simpl. lia.
Qed.

(** X8. Ghost inventory is always a spoilage risk: every SKU stored in a
    ghost bin is a temperature violation, with a missing slot; so the
    violation count is at least the number of SKUs the ghost tab shows. *)
Theorem ghost_inventory_violates (sku_master : list SkuRow) (warehouse : list SlotRow) :
  (forall s, s ∈ sku_master ->
     current_slot s ∈ ghost_bins sku_master warehouse ->
     (s, None) ∈ temp_violations sku_master warehouse) /\
  (length (filter (λ s, current_slot s ∈ ghost_bins sku_master warehouse) sku_master)
     <= length (temp_violations sku_master warehouse))%nat /\
  (forall shown, ghost_tab sku_master warehouse = AlertError shown ->
     (1 <= length shown <= length (temp_violations sku_master warehouse))%nat).
Proof.
  assert (HG : forall x, x ∈ ghost_bins sku_master warehouse ->
                 forall w, w ∈ warehouse -> slot_id w <> x).
  { intros x Hx w Hw E. apply elem_of_ghost_bins in Hx as [_ Hn]. apply Hn. eauto. }
  pose proof (ghost_rows_violate _ sku_master warehouse HG) as Hlen.
  split; [|split; [exact Hlen|]].
  - intros s Hs Hg. unfold temp_violations.
    apply list_elem_of_filter. split; [discriminate|].
    apply elem_of_merge_left. split; [exact Hs|]. left. split; [reflexivity|].
    intros b Hb E. exact (HG _ Hg b Hb E).
  - intros shown E. unfold ghost_tab in E.
    destruct (decide (ghost_bins sku_master warehouse = ∅)) as [E0|E0]; [discriminate|].
    injection E as <-. split; [|exact Hlen].
    apply set_choose_L in E0 as [x Hx].
    pose proof Hx as Hx'. apply elem_of_ghost_bins in Hx' as [(s & Hs & Es) _].
    assert (Hin : s ∈ filter (λ s, current_slot s ∈ ghost_bins sku_master warehouse)
                          sku_master).
    { apply list_elem_of_filter. split; [now rewrite Es|exact Hs]. }
    destruct (filter _ sku_master); [inversion Hin|simpl; lia].
Qed.



(** ** Chaos score (lines 182-189) *)

Lemma py_min_mono_r a b b' : b <= b' -> Py.min a b <= Py.min a b'.
Proof. intros H. rewrite !py_min_Qmin. now apply Q.min_le_compat_l. Qed.

Lemma round_half_even_nonneg x : 0 <= x -> (0 <= Py.round_half_even x)%Z.
Proof.
  intros H. change 0%Z with (Py.round_half_even 0). now apply round_half_even_mono.
Qed.

Lemma round1_mono x y : 0 <= x -> x <= y -> Py.round1 x <= Py.round1 y.
Proof.
  intros Hx Hxy. unfold Py.round1.
  assert (Hk : (Py.round_half_even (x * 10) <= Py.round_half_even (y * 10))%Z).
  { apply round_half_even_mono. lra. }
  assert (H0 : (0 <= Py.round_half_even (x * 10))%Z).
  { apply round_half_even_nonneg. lra. }
  rewrite Zle_Qle in Hk, H0. change (inject_Z 0) with 0 in H0.
  generalize dependent (inject_Z (Py.round_half_even (x * 10))). intros k Hk H0.
  generalize dependent (inject_Z (Py.round_half_even (y * 10))). intros k' Hk.
  assert (E : k / 10 == k * (1 # 10)) by reflexivity.
  assert (E' : k' / 10 == k' * (1 # 10)) by reflexivity.
  apply rnd_mono; rewrite ?E, ?E'; lra.
Qed.

Lemma lit_005_pos : 0 <= Py.lit 0.05.
Proof. discriminate. Qed.

Lemma temp_penalty_mono v v' : (v <= v')%nat -> temp_penalty v <= temp_penalty v'.
Proof.
  intros H. unfold temp_penalty. apply py_min_mono_r. unfold Py.mul.
  pose proof (float_nonneg v) as H0. pose proof (float_le v v' H) as Hle.
  pose proof lit_005_pos as Hc.
  apply rnd_mono.
  - now apply Qmult_le_0_compat.
  - now apply Qmult_le_compat_r.
Qed.

Lemma shortcut_penalty_mono s s' : (s <= s')%nat -> shortcut_penalty s <= shortcut_penalty s'.
Proof.
  intros H. unfold shortcut_penalty. apply py_min_mono_r.
  unfold Py.int. rewrite <- Zle_Qle. lia.
Qed.

(** X10. More trouble never raises the score: with at least as many
    temperature violations, at least as many suspicious pickers and at
    least as large a share of traffic in aisle B, the chaos score is the
    same or lower. *)
Theorem chaos_score_antitone (v v' s s' : nat) (p p' : Q) :
  (v <= v')%nat -> (s <= s')%nat -> 0 <= p -> p <= p' ->
  chaos_score v' s' p' <= chaos_score v s p.
Proof.
  intros Hv Hs Hp Hpp.
  pose proof (temp_penalty_mono v v' Hv) as Mt.
  pose proof (shortcut_penalty_mono s s' Hs) as Ms.
  assert (Ma : aisle_b_penalty p <= aisle_b_penalty p').
  { unfold aisle_b_penalty. now apply py_min_mono_r. }
  pose proof (temp_penalty_bounds v) as Bt. pose proof (temp_penalty_bounds v') as Bt'.
  pose proof (shortcut_penalty_bounds s) as Bs.
  pose proof (shortcut_penalty_bounds s') as Bs'.
  pose proof (aisle_b_penalty_bounds p Hp) as Ba.
  assert (Hp' : 0 <= p') by lra.
  pose proof (aisle_b_penalty_bounds p' Hp') as Ba'.
  unfold chaos_score.
  generalize dependent (temp_penalty v). intros t Mt Bt.
  generalize dependent (temp_penalty v'). intros t' Mt Bt'.
  generalize dependent (shortcut_penalty s). intros c Ms Bs.
  generalize dependent (shortcut_penalty s'). intros c' Ms Bs'.
  generalize dependent (aisle_b_penalty p). intros a Ma Ba.
  generalize dependent (aisle_b_penalty p'). intros a' Ma Ba'.
  assert (L1 : 75 <= Py.sub 100 t' <= 100).
  { apply rnd_between; [reflexivity|reflexivity|discriminate|lra]. }
  assert (M1 : Py.sub 100 t' <= Py.sub 100 t).
  { apply rnd_mono; lra. }
  assert (L2 : 60 <= Py.sub (Py.sub 100 t') c' <= 100).
  { apply rnd_between; [reflexivity|reflexivity|discriminate|lra]. }
  assert (M2 : Py.sub (Py.sub 100 t') c' <= Py.sub (Py.sub 100 t) c).
  { apply rnd_mono; lra. }
  assert (L3 : 40 <= Py.sub (Py.sub (Py.sub 100 t') c') a' <= 100).
  { apply rnd_between; [reflexivity|reflexivity|discriminate|lra]. }
  assert (M3 : Py.sub (Py.sub (Py.sub 100 t') c') a'
               <= Py.sub (Py.sub (Py.sub 100 t) c) a).
  { apply rnd_mono; lra. }
  apply round1_mono; [lra|exact M3].
Qed.

Lemma chaos_score_antitone_witness :
  (3 <= 7)%nat /\ (0 <= 1)%nat /\ 0 <= 10 /\ 10 <= 30 /\
  chaos_score 7 1 30 <= chaos_score 3 0 10.
Proof.
  assert (Hv : (3 <= 7)%nat) by lia. assert (Hs : (0 <= 1)%nat) by lia.
  assert (Hp : 0 <= 10) by discriminate. assert (Hpp : 10 <= 30) by discriminate.
  exact (conj Hv (conj Hs (conj Hp (conj Hpp
           (chaos_score_antitone 3 7 0 1 10 30 Hv Hs Hp Hpp))))).
Defined.

(** X11. Where the caps bite: the temperature penalty is 25 exactly from
    500 violations on, the shortcut penalty is 15 exactly from 3 suspicious
    pickers on, the aisle-B penalty is 20 exactly from 20 percent on; and
    when all three are capped the chaos score is exactly 40.0, so the
    floor of the score is reached. *)
Theorem chaos_score_caps (v s : nat) (p : Q) :
  (temp_penalty v == 25 <-> (500 <= v)%nat) /\
  (shortcut_penalty s == 15 <-> (3 <= s)%nat) /\
  (aisle_b_penalty p == 20 <-> 20 <= p) /\
  ((500 <= v)%nat -> (3 <= s)%nat -> 20 <= p -> chaos_score v s p = 40).
Proof.
  assert (Ht : temp_penalty v == 25 <-> (500 <= v)%nat).
  { pose proof (temp_penalty_bounds v) as [_ Hle]. split.
    - intros E. destruct (le_lt_dec 500 v) as [H|H]; [exact H|exfalso].
      pose proof (temp_penalty_mono v 499 ltac:(lia)) as Hm.
      assert (H499 : temp_penalty 499 < 25) by reflexivity. lra.
    - intros H. pose proof (temp_penalty_mono 500 v H) as Hm.
      assert (H500 : temp_penalty 500 == 25) by reflexivity. lra. }
  assert (Hs : shortcut_penalty s == 15 <-> (3 <= s)%nat).
  { pose proof (shortcut_penalty_bounds s) as [_ Hle]. split.
    - intros E. destruct (le_lt_dec 3 s) as [H|H]; [exact H|exfalso].
      pose proof (shortcut_penalty_mono s 2 ltac:(lia)) as Hm.
      assert (H2 : shortcut_penalty 2 < 15) by reflexivity. lra.
    - intros H. pose proof (shortcut_penalty_mono 3 s H) as Hm.
      assert (H3 : shortcut_penalty 3 == 15) by reflexivity. lra. }
  assert (Ha : aisle_b_penalty p == 20 <-> 20 <= p).
  { unfold aisle_b_penalty. rewrite py_min_Qmin. split.
    - intros E. rewrite <- E. apply Q.le_min_r.
    - intros H. now apply Q.min_l. }
  split; [exact Ht|]. split; [exact Hs|]. split; [exact Ha|].
  intros Hv Hs' Hp. unfold chaos_score.
  rewrite (proj2 Ht Hv), (proj2 Hs Hs'), (proj2 Ha Hp). reflexivity.
Qed.
